(** * AWS exam question agent: OCR -> LLM -> Notion

    A shallow embedding of the Python sources

      - [utils/ocr.py]            (module [Ocr])
      - [utils/llm.py]            (module [Llm])
      - [utils/notion.py]         (module [Notion])
      - [aws_question_agent.py]   (module [Agent])

    Python values are an inductive type, exceptions are a sum, and the
    process state (file system, the module global [_reader], the log of
    observable effects) is threaded through a state-and-exception monad.
    Python's [float] is binary64, computed with the Standard Library's
    [SpecFloat].  Third-party code (OpenCV kernels, the EasyOCR engine,
    the Ollama model, [json.loads], the Notion client) is a record of
    collaborators that every definition is parametrised by. *)

From Stdlib Require Import ZArith NArith Lia List Bool Ascii String SpecFloat.
From stdpp Require Import base decidable option list gmap.

Set Warnings "-register-all".
Open Scope Z_scope.

(** ** Python strings and values *)

Module Py.

(** A Python [str] is a sequence of Unicode code points. *)
Definition str := list N.

(** Source literals (ASCII) as [str]. *)
Definition lit (s : string) : str :=
  List.map N_of_ascii (list_ascii_of_string s).

(** [str.isspace] for one character: the code points CPython's
    [_PyUnicode_IsWhitespace] accepts. *)
Definition isspace (c : N) : bool :=
  ((9 <=? c) && (c <=? 13) || (28 <=? c) && (c <=? 32)
   || (c =? 133) || (c =? 160) || (c =? 5760)
   || (8192 <=? c) && (c <=? 8202)
   || (c =? 8232) || (c =? 8233) || (c =? 8239) || (c =? 8287)
   || (c =? 12288))%N.

Fixpoint lstrip (s : str) : str :=
  match s with
  | c :: s' => if isspace c then lstrip s' else s
  | [] => []
  end.

Definition rstrip (s : str) : str := rev (lstrip (rev s)).

(** [s.strip()] *)
Definition strip (s : str) : str := lstrip (rstrip s).

(** [sep.join(parts)] *)
Fixpoint join (sep : str) (parts : list str) : str :=
  match parts with
  | [] => []
  | [p] => p
  | p :: ps => p ++ sep ++ join sep ps
  end.

(** JSON-shaped Python values.  A [dict] keeps insertion order. *)
Inductive pyval :=
| PNone
| PBool (b : bool)
| PInt (z : Z)
| PFloat (f : spec_float)
| PStr (s : str)
| PList (l : list pyval)
| PDict (d : list (str * pyval)).

Definition dict := list (str * pyval).

Definition str_eqb (a b : str) : bool := bool_decide (a = b).

(** [d[k]] lookup on the entries of a dict. *)
Fixpoint dict_get (k : str) (d : dict) : option pyval :=
  match d with
  | [] => None
  | (k', v) :: d' => if str_eqb k k' then Some v else dict_get k d'
  end.

(** [d[k] = v]: overwrite in place, or append a new key. *)
Fixpoint dict_set (k : str) (v : pyval) (d : dict) : dict :=
  match d with
  | [] => [(k, v)]
  | (k', v') :: d' =>
      if str_eqb k k' then (k', v) :: d' else (k', v') :: dict_set k v d'
  end.

(** [d.update(u)] *)
Definition dict_update (d u : dict) : dict :=
  fold_left (fun acc kv => dict_set (fst kv) (snd kv) acc) u d.

(** Truth value of an object in a condition. *)
Definition truthy (v : pyval) : bool :=
  match v with
  | PNone => false
  | PBool b => b
  | PInt z => negb (z =? 0)
  | PFloat (S754_zero _) => false
  | PFloat _ => true
  | PStr s => negb (bool_decide (s = []))
  | PList l => negb (bool_decide (length l = 0%nat))
  | PDict d => negb (bool_decide (length d = 0%nat))
  end.

Inductive exn :=
| FileNotFoundError (msg : str)
| KeyError (key : pyval)
| TypeError (what : string)
| IndexError
| ZeroDivisionError
| OverflowError
| ValueError
| JSONDecodeError (doc : str)
| GraphRecursionError
| ExternalError (origin : string) (detail : str).

Definition result (A : Type) : Type := exn + A.

(** Sequencing of steps that may raise. *)
Definition and_then {A B} (r : result A) (k : A -> result B) : result B :=
  match r with
  | inr a => k a
  | inl e => inl e
  end.

Notation "'let+' x ':=' c 'in' k" := (and_then c (fun x => k))
  (at level 10, x name, c at level 100, k at level 200,
   format "'[v' 'let+'  x  ':='  c  'in' '/' k ']'").

(** [v[key]] for a string key, the only subscript the sources apply to
    values of unknown shape. *)
Definition getitem (v : pyval) (key : str) : result pyval :=
  match v with
  | PDict d =>
      match dict_get key d with
      | Some x => inr x
      | None => inl (KeyError (PStr key))
      end
  | PList _ => inl (TypeError "list indices must be integers or slices, not str")
  | PStr _ => inl (TypeError "string indices must be integers, not 'str'")
  | _ => inl (TypeError "object is not subscriptable")
  end.

(** The items a [for] loop draws from a value. *)
Definition iterate (v : pyval) : result (list pyval) :=
  match v with
  | PList l => inr l
  | PDict d => inr (List.map (fun kv => PStr (fst kv)) d)
  | PStr s => inr (List.map (fun c => PStr [c]) s)
  | _ => inl (TypeError "object is not iterable")
  end.

End Py.

(** ** IEEE 754 binary64, the arithmetic of Python's [float]

    [spec_float] at precision 53 is the Standard Library's executable
    specification of binary64 with round-to-nearest-even, which is what
    CPython's [float] computes with. *)

Module Float64.
Import Py.

Definition prec : Z := 53.
Definition emax : Z := 1024.

(** The double nearest to an integer, as numpy converts. *)
Definition of_Z (z : Z) : spec_float := binary_normalize prec emax z 0 false.

(** [float(z)]: the nearest double; [OverflowError] beyond the range. *)
Definition of_int (z : Z) : result spec_float :=
  match of_Z z with
  | S754_infinity _ => inl OverflowError
  | f => inr f
  end.

(** [a / b] on two [int]s.  CPython rounds the exact quotient once;
    for operands below [2^53] in magnitude (every conversion is then
    exact) that is the binary64 quotient of the converted operands. *)
Definition truediv_int (a b : Z) : result spec_float :=
  if b =? 0 then inl ZeroDivisionError
  else
    let+ fa := of_int a in
    let+ fb := of_int b in
    inr (SFdiv prec emax fa fb).

(** [n * x] for an [int] and a [float]: [n] is converted first. *)
Definition mul_int_float (n : Z) (x : spec_float) : result spec_float :=
  let+ fn := of_int n in
  inr (SFmul prec emax fn x).

(** [int(x)]: truncation toward zero. *)
Definition to_int (x : spec_float) : result Z :=
  match x with
  | S754_zero _ => inr 0
  | S754_finite s m e =>
      let a := if 0 <=? e then Z.pos m * 2 ^ e else Z.pos m / 2 ^ (- e) in
      inr (if s then - a else a)
  | S754_infinity _ => inl OverflowError
  | S754_nan => inl ValueError
  end.

(** [int(n * x)] *)
Definition int_mul (n : Z) (x : spec_float) : result Z :=
let+ nx := mul_int_float n x in
to_int nx.

End Float64.

(** ** Arrays, the process state and the collaborators *)

(** A [numpy.ndarray] of 8-bit samples as OpenCV lays it out: the first
    two entries of [shape] and the row-major buffer. *)
Record ndarray (A : Type) : Type := mk_ndarray {
  rows : Z;
  cols : Z;
  buf : list A
}.
Arguments mk_ndarray {A} _ _ _.
Arguments rows {A} _.
Arguments cols {A} _.
Arguments buf {A} _.

(** A BGR sample. *)
Definition bgr : Type := Z * Z * Z.

(** An [easyocr.Reader] instance: the configuration it was built with. *)
Record Reader := mk_Reader {
  reader_langs : list Py.str;
  reader_gpu : bool
}.

(** What a run does to the outside, in order.  [Called] is bookkeeping: it
    marks the entry of one of the repository's functions with its
    argument, so that calls can be counted; the other events are effects
    the code has. *)
Inductive event :=
| Print (args : list Py.pyval)
| ReaderLoaded (langs : list Py.str) (gpu : bool)
| Readtext (r : Reader) (img : ndarray Z)
| Imwrite (path : Py.str) (img : ndarray Z) (ok : bool)
| LlmInvoke (prompt : Py.str)
| NotionAppend (parent : Py.pyval) (payload : Py.pyval)
| Called (fn : string) (arg : Py.pyval).

(** The process: the images the file system holds (as [cv2.imread]
    decodes them), the paths that cannot be written, the module global
    [_reader] of [utils/ocr.py], and the log of effects so far. *)
Record World := mk_World {
  fs : gmap Py.str (ndarray bgr);
  unwritable : Py.str -> bool;
  _reader : option Reader;
  trace : list event
}.

(** Third-party code the sources call. *)
Class Collaborators := {
  (** [cv2.resize(img, (W, H), interpolation=cv2.INTER_LINEAR)]: the
      samples of the [H]-by-[W] result. *)
  resize_samples : ndarray bgr -> Z -> Z -> list bgr;
  (** [cv2.cvtColor(_, cv2.COLOR_BGR2GRAY)] on one sample. *)
  bgr2gray : bgr -> Z;
  (** [cv2.bilateralFilter(gray, d, sigmaColor, sigmaSpace)] *)
  bilateralFilter : ndarray Z -> Z -> Z -> Z -> ndarray Z;
  (** [cv2.adaptiveThreshold(blur, maxValue, GAUSSIAN_C, THRESH_BINARY,
      blockSize, C)] *)
  adaptiveThreshold : ndarray Z -> Z -> Z -> Z -> ndarray Z;
  (** How a grayscale image written as JPEG decodes when read back. *)
  jpeg_view : ndarray Z -> ndarray bgr;
  (** [easyocr.Reader(lang_list, gpu=gpu)]: [Some e] when loading fails. *)
  reader_load_error : list Py.str -> bool -> option Py.exn;
  (** [reader.readtext(img, detail=0, paragraph=True)] *)
  readtext : Reader -> ndarray Z -> Py.result (list Py.str);
  (** [prompt.format(question_text=...)] *)
  prompt_format : Py.pyval -> Py.str;
  (** [model.invoke(prompt).content] *)
  model_invoke : Py.str -> Py.result Py.str;
  (** [json.loads] *)
  json_loads : Py.str -> Py.result Py.pyval;
  (** [NOTION_PARENT], read from the environment at import time. *)
  NOTION_PARENT : Py.pyval;
  (** [notion.append_block_children(parent, payload)] *)
  append_block_children : Py.pyval -> Py.pyval -> Py.result Py.pyval
}.

(** ** The state-and-exception monad

    A raised exception keeps the effects that happened before it. *)

Module Run.
Import Py.

Definition M (A : Type) : Type := World -> result A * World.

Definition ret {A} (a : A) : M A := fun w => (inr a, w).
Definition raise {A} (e : exn) : M A := fun w => (inl e, w).
Definition bind {A B} (c : M A) (k : A -> M B) : M B :=
  fun w =>
    match c w with
    | (inr a, w') => k a w'
    | (inl e, w') => (inl e, w')
    end.

Definition lift {A} (r : result A) : M A := fun w => (r, w).

Definition log (e : event) : M unit :=
  fun w => (inr tt, mk_World (fs w) (unwritable w) (_reader w) (trace w ++ [e])).

Definition print (args : list pyval) : M unit := log (Print args).

End Run.

Declare Scope py_scope.
Delimit Scope py_scope with py.
Notation "'let*' x ':=' c 'in' k" := (Run.bind c (fun x => k))
  (at level 10, x name, c at level 100, k at level 200,
   format "'[v' 'let*'  x  ':='  c  'in' '/' k ']'") : py_scope.

(** ** utils/ocr.py *)

Module Ocr.
Import Py Run.
Local Open Scope py_scope.

Section WithCollaborators.
Context `{Collaborators}.

Definition set_reader (r : option Reader) : M unit :=
  fun w => (inr tt, mk_World (fs w) (unwritable w) r (trace w)).

(** [easyocr.Reader(lang_list, gpu=gpu)] *)
Definition easyocr_Reader (lang_list : list str) (gpu : bool) : M Reader :=
  match reader_load_error lang_list gpu with
  | Some e => raise e
  | None =>
      let* _ := log (ReaderLoaded lang_list gpu) in
      ret (mk_Reader lang_list gpu)
  end.

Definition init_reader (lang_list : list str) (gpu : bool) : M Reader :=
  fun w =>
    match _reader w with
    | None =>
        (let* r := easyocr_Reader lang_list gpu in
         let* _ := set_reader (Some r) in
         ret r) w
    | Some r => (inr r, w)
    end.

(** [cv2.imread(path)]: [None] when the file is missing or is not an
    image. *)
Definition imread (path : pyval) : M (option (ndarray bgr)) :=
  fun w =>
    match path with
    | PStr p => (inr (fs w !! p), w)
    | _ => (inl (TypeError "Can't convert object to 'str' for 'filename'"), w)
    end.

(** [cv2.imwrite(path, img)]: [False], not an exception, when the
    file cannot be created. *)
Definition imwrite (path : str) (img : ndarray Z) : M bool :=
  fun w =>
    let ok := negb (unwritable w path) in
    (inr ok,
     mk_World (if ok then <[path := jpeg_view img]> (fs w) else fs w)
              (unwritable w) (_reader w)
              (trace w ++ [Imwrite path img ok])).

(** [cv2.resize(img, (W, H), interpolation=cv2.INTER_LINEAR)] *)
Definition resize (img : ndarray bgr) (dsize : Z * Z) : ndarray bgr :=
  mk_ndarray (snd dsize) (fst dsize) (resize_samples img (fst dsize) (snd dsize)).

(** [cv2.cvtColor(img, cv2.COLOR_BGR2GRAY)] *)
Definition cvtColor_BGR2GRAY (img : ndarray bgr) : ndarray Z :=
  mk_ndarray (rows img) (cols img) (List.map bgr2gray (buf img)).

(** [np.mean(gray)]: numpy adds the samples in binary64 and divides by
    their number.  The sum of 8-bit samples is an integer, exact in
    binary64 below [2^53], so it is the total converted; the quotient is
    the binary64 one, [nan] on an empty array. *)
Definition np_mean (gray : ndarray Z) : spec_float :=
  let total := fold_right Z.add 0 (buf gray) in
  let count := Z.of_nat (length (buf gray)) in
  SFdiv Float64.prec Float64.emax (Float64.of_Z total) (Float64.of_Z count).

(** [mean < bound], a comparison of doubles; with [nan] it is false. *)
Definition mean_lt (mean : spec_float) (bound : Z) : bool :=
  SFltb mean (Float64.of_Z bound).

(** [cv2.bitwise_not] on 8-bit samples. *)
Definition bitwise_not (gray : ndarray Z) : ndarray Z :=
  mk_ndarray (rows gray) (cols gray)
             (List.map (fun x => Z.land (Z.lnot x) 255) (buf gray)).

(** The upscale step of [preprocess_image]. *)
Definition upscale (img : ndarray bgr) (resize_width : Z) : result (ndarray bgr) :=
  let h := rows img in
  let w := cols img in
  if w <? resize_width then
    let+ scale := Float64.truediv_int resize_width w in
    let+ W := Float64.int_mul w scale in
    let+ H' := Float64.int_mul h scale in
    inr (resize img (W, H'))
  else inr img.

(** The polarity step of [preprocess_image]. *)
Definition normalize_polarity (gray : ndarray Z) : ndarray Z :=
  if mean_lt (np_mean gray) 100 then bitwise_not gray else gray.

Definition preprocess_image (path : pyval) (resize_width : Z) : M (ndarray Z) :=
  let* img := imread path in
  match img with
  | None =>
      raise (FileNotFoundError
               (lit "Image not found: "
                ++ match path with PStr p => p | _ => [] end))
  | Some img =>
      let* img := lift (upscale img resize_width) in
      let gray := cvtColor_BGR2GRAY img in
      let gray := normalize_polarity gray in
      let* _ := imwrite (lit "outputs/preprocessed-gray.jpg") gray in
      let blur := bilateralFilter gray 9 15 15 in
      let* _ := imwrite (lit "outputs/preprocessed-blur.jpg") blur in
      let th := adaptiveThreshold blur 255 15 8 in
      let* _ := imwrite (lit "outputs/preprocessed.jpg") th in
      ret th
  end.

(** The comprehension and join that close [image_to_text]. *)
Definition join_fragments (results : list str) : str :=
  join (lit (String "010" EmptyString))
       (List.map strip
          (List.filter (fun r => negb (bool_decide (strip r = []))) results)).

Definition image_to_text (path : pyval) (lang_list : list str) (gpu : bool) : M str :=
  let* reader := init_reader lang_list gpu in
  let* prep := preprocess_image path 1600 in
  (* Image.fromarray(prep) and np.array(pil) leave the samples as they are *)
  let* _ := log (Readtext reader prep) in
  let* results := lift (readtext reader prep) in
  ret (join_fragments results).

End WithCollaborators.
End Ocr.

(** ** utils/llm.py *)

Module Llm.
Import Py Run.
Local Open Scope py_scope.

Section WithCollaborators.
Context `{Collaborators}.

Definition answer_question_with_llm (question_text : pyval) : M str :=
  let* _ := log (Called "answer_question_with_llm" question_text) in
  let prompt_filled := prompt_format question_text in
  let* _ := log (LlmInvoke prompt_filled) in
  let* content := lift (model_invoke prompt_filled) in
  ret (strip content).

End WithCollaborators.
End Llm.

(** ** utils/notion.py *)

Module Notion.
Import Py Run.
Local Open Scope py_scope.

(** One turn of the loop body of [build_notion_payload]. *)
Definition build_toggle (ans : pyval) : result pyval :=
  let+ c1 := getitem ans (lit "isCorrect") in
  let correctness_label := if truthy c1 then lit "Correcto" else lit "Incorrecto" in
  let+ c2 := getitem ans (lit "isCorrect") in
  let color := if truthy c2 then lit "green" else lit "red" in
  let+ option := getitem ans (lit "option") in
  let+ explanation := getitem ans (lit "explanation") in
  inr (PDict
    [ (lit "object", PStr (lit "block"));
      (lit "type", PStr (lit "toggle"));
      (lit "toggle", PDict
        [ (lit "rich_text", PList
            [ PDict [ (lit "type", PStr (lit "text"));
                      (lit "text", PDict [ (lit "content", option) ]) ] ]);
          (lit "children", PList
            [ PDict
                [ (lit "object", PStr (lit "block"));
                  (lit "type", PStr (lit "paragraph"));
                  (lit "paragraph", PDict
                    [ (lit "rich_text", PList
                        [ PDict
                            [ (lit "type", PStr (lit "text"));
                              (lit "text", PDict
                                 [ (lit "content",
                                    PStr (correctness_label ++ lit ": ")) ]);
                              (lit "annotations", PDict
                                 [ (lit "code", PBool true);
                                   (lit "color", PStr color) ]) ];
                          PDict
                            [ (lit "type", PStr (lit "text"));
                              (lit "text", PDict
                                 [ (lit "content", explanation) ]) ] ]) ]) ] ]) ]) ]).

(** The [for] loop: [toggles] grows by one block per item, in order, and
    the first failing item ends the loop. *)
Fixpoint build_toggles (toggles : list pyval) (answers : list pyval)
  : result (list pyval) :=
  match answers with
  | [] => inr toggles
  | ans :: rest =>
      let+ toggle := build_toggle ans in
      build_toggles (toggles ++ [toggle]) rest
  end.

Definition build_notion_payload (question_data : pyval) : result pyval :=
  let+ answer := getitem question_data (lit "answer") in
  let+ items := iterate answer in
  let+ toggles := build_toggles [] items in
  let+ question := getitem question_data (lit "question") in
  inr (PDict
    [ (lit "children", PList
        [ PDict
            [ (lit "object", PStr (lit "block"));
              (lit "type", PStr (lit "numbered_list_item"));
              (lit "numbered_list_item", PDict
                [ (lit "rich_text", PList
                    [ PDict
                        [ (lit "type", PStr (lit "text"));
                          (lit "text", PDict [ (lit "content", question) ]) ] ]);
                  (lit "children", PList toggles) ]) ] ]) ]).

Section WithCollaborators.
Context `{Collaborators}.

Definition upload_question (question_data : pyval) : M pyval :=
  let* _ := log (Called "upload_question" question_data) in
  let* _ := print [question_data] in
  let* notion_payload := lift (build_notion_payload question_data) in
  let* _ := log (NotionAppend NOTION_PARENT notion_payload) in
  let* _ := lift (append_block_children NOTION_PARENT notion_payload) in
  ret (PBool true).

End WithCollaborators.
End Notion.

(** ** aws_question_agent.py *)

Module Agent.
Import Py Run.
Local Open Scope py_scope.

(** [state[key]] on the graph state. *)
Definition state_get (state : dict) (key : string) : M pyval :=
  lift (getitem (PDict state) (lit key)).

(** The part of [langgraph] the module uses: named nodes, one entry
    point, one outgoing edge per node. *)
Record StateGraph := mk_StateGraph {
  nodes : list (string * (dict -> M dict));
  entry_point : option string;
  edges : list (string * string)
}.

Definition END : string := "__end__".

Definition new_StateGraph : StateGraph := mk_StateGraph [] None [].

Definition add_node (name : string) (fn : dict -> M dict) (g : StateGraph) :=
  mk_StateGraph (nodes g ++ [(name, fn)]) (entry_point g) (edges g).

Definition set_entry_point (name : string) (g : StateGraph) :=
  mk_StateGraph (nodes g) (Some name) (edges g).

Definition add_edge (src dst : string) (g : StateGraph) :=
  mk_StateGraph (nodes g) (entry_point g) (edges g ++ [(src, dst)]).

Fixpoint assoc {A} (k : string) (l : list (string * A)) : option A :=
  match l with
  | [] => None
  | (k', a) :: l' => if String.eqb k k' then Some a else assoc k l'
  end.

(** The run loop of a compiled graph: call the current node on the
    state, write what it returns back into the state, follow the edge;
    [END] stops the run, and so does an exception, which reaches the
    caller of [invoke] as it is.  [fuel] is the recursion limit. *)
Fixpoint run_from (fuel : nat) (g : StateGraph) (node : string) (state : dict)
  : M dict :=
  if String.eqb node END then ret state
  else
    match fuel with
    | O => raise GraphRecursionError
    | S fuel' =>
        match assoc node (nodes g) with
        | None => raise ValueError
        | Some fn =>
            let* update := fn state in
            let state' := dict_update state update in
            match assoc node (edges g) with
            | Some next => run_from fuel' g next state'
            | None => ret state'
            end
        end
    end.

Definition recursion_limit : nat := 25.

(** [graph.invoke(input_state)] *)
Definition invoke (g : StateGraph) (input_state : dict) : M dict :=
  match entry_point g with
  | Some n => run_from recursion_limit g n input_state
  | None => raise ValueError
  end.

Section WithCollaborators.
Context `{Collaborators}.

Definition get_question_text (state : dict) : M dict :=
  let* _ := print [PStr (lit "Running OCR...")] in
  let* path := state_get state "file_path" in
  let* text := Ocr.image_to_text path [lit "en"] true in
  if bool_decide (strip text = []) then
    let* _ := print [PStr (lit "No text extracted from image.")] in
    ret state
  else
    let* _ := print [PStr (lit "Question text extracted:")] in
    let* _ := print [PStr (take 500 text); PStr (lit "...\n")] in
    let state := dict_set (lit "ocr_text") (PStr text) state in
    ret state.

Definition convert_text_to_json (state : dict) : M dict :=
  let* _ := print [PStr (lit "Asking local LLM (Ollama) to answer...")] in
  let* ocr_text := state_get state "ocr_text" in
  let* question := Llm.answer_question_with_llm ocr_text in
  let* parsed := lift (json_loads question) in
  let state := dict_set (lit "question") parsed state in
  let* _ := print [PStr (lit "Ollama Generate the question")] in
  ret state.

Definition upload_to_notion (state : dict) : M dict :=
  let* _ := print [PStr (lit "Uploading to Notion...")] in
  let* question := state_get state "question" in
  let* _ := Notion.upload_question question in
  ret state.

Definition workflow : StateGraph :=
  add_edge "upload_to_notion" END
    (add_edge "convert_text_to_json" "upload_to_notion"
      (add_edge "get_question_text" "convert_text_to_json"
        (set_entry_point "get_question_text"
          (add_node "upload_to_notion" upload_to_notion
            (add_node "convert_text_to_json" convert_text_to_json
              (add_node "get_question_text" get_question_text
                new_StateGraph)))))).

(** [workflow.compile()] checks the graph and keeps its shape. *)
Definition graph : StateGraph := workflow.

Definition input_state : dict :=
  [ (lit "file_path", PStr (lit "images/Prueba.png")) ].

End WithCollaborators.
End Agent.

(** ** What a trace shows *)

Module Obs.
Import Py.

(** The events a step added, given the worlds before and after it. *)
Definition events_since (before after : World) : list event :=
  drop (length (trace before)) (trace after).

(** A world with more events in its log. *)
Definition logged (evs : list event) (w : World) : World :=
mk_World (fs w) (unwritable w) (_reader w) (trace w ++ evs).

(** The arguments of the calls of one function, in order. *)
Definition calls_of (fn : string) (tr : list event) : list pyval :=
  omap (fun e => match e with
                 | Called f a => if String.eqb f fn then Some a else None
                 | _ => None
                 end) tr.

(** Calls of the Publisher, [upload_question]. *)
Definition publisher_calls := calls_of "upload_question".

(** Calls of the Question Structurer, [answer_question_with_llm]. *)
Definition structurer_calls := calls_of "answer_question_with_llm".

(** Blocks sent to the Notion API. *)
Definition notion_appends (tr : list event) : list pyval :=
  omap (fun e => match e with NotionAppend _ p => Some p | _ => None end) tr.

(** Engines constructed. *)
Definition reader_loads (tr : list event) : list Reader :=
  omap (fun e => match e with
                 | ReaderLoaded l g => Some (mk_Reader l g)
                 | _ => None
                 end) tr.

(** Engines that recognised an image. *)
Definition readers_used (tr : list event) : list Reader :=
  omap (fun e => match e with Readtext r _ => Some r | _ => None end) tr.

(** Results of the writes of debug images. *)
Definition imwrite_results (tr : list event) : list (str * bool) :=
  omap (fun e => match e with Imwrite p _ ok => Some (p, ok) | _ => None end) tr.

(** One call [image_to_text(path, lang_list, gpu)]. *)
Record call := mk_call {
  call_path : pyval;
  call_langs : list str;
  call_gpu : bool
}.

(** A process that makes the calls one after the other, going on after
    a call that raised; each call is paired with the events it added. *)
Fixpoint extract_all `{Collaborators} (calls : list call) (w : World)
  : list (call * list event) * World :=
  match calls with
  | [] => ([], w)
  | c :: rest =>
      let w' := snd (Ocr.image_to_text (call_path c) (call_langs c) (call_gpu c) w) in
      let (log, w'') := extract_all rest w' in
      ((c, events_since w w') :: log, w'')
  end.

(** The engine every recognition of a call ran on was built for the
    configuration the call asked for. *)
Definition uses_requested (c : call) (evs : list event) : Prop :=
  Forall (fun r => r = mk_Reader (call_langs c) (call_gpu c)) (readers_used evs).

Definition all_use_requested (log : list (call * list event)) : Prop :=
Forall (fun ce => uses_requested (fst ce) (snd ce)) log.

(** The cache and the log agree: the engines built so far are the one
    held in [_reader], if any, and every recognition so far ran on it. *)
Definition cache_consistent (w : World) : Prop :=
reader_loads (trace w) = option_list (_reader w)
/\ Forall (fun r => _reader w = Some r) (readers_used (trace w)).

(** The three intermediate images of [preprocess_image], from the image
    that leaves the upscale step: grayscale after the polarity step,
    denoised, binarized. *)
Definition stages `{Collaborators} (img : ndarray bgr)
  : ndarray Z * ndarray Z * ndarray Z :=
let gray := Ocr.normalize_polarity (Ocr.cvtColor_BGR2GRAY img) in
let blur := bilateralFilter gray 9 15 15 in
let th := adaptiveThreshold blur 255 15 8 in
(gray, blur, th).

(** The world after the three debug writes. *)
Definition after_writes `{Collaborators} (img : ndarray bgr) (w : World) : World :=
let '(gray, blur, th) := stages img in
snd (Ocr.imwrite (lit "outputs/preprocessed.jpg") th
       (snd (Ocr.imwrite (lit "outputs/preprocessed-blur.jpg") blur
               (snd (Ocr.imwrite (lit "outputs/preprocessed-gray.jpg") gray w))))).

(** The first line a run prints. *)
Definition running_ocr : event := Print [PStr (lit "Running OCR...")].


(** The start of a process: [_reader = None], nothing logged. *)
Definition fresh (w : World) : Prop := _reader w = None /\ trace w = [].

End Obs.

(** ** The spec's words, for comparison with the code *)

Module Spec.
Import Py.

Definition newline : str := lit (String "010" EmptyString).

Definition blank (s : str) : bool := bool_decide (strip s = []).

(** "join non-blank fragments with newline separators, discarding blank
    fragments" *)
Definition join_non_blank (fragments : list str) : str :=
  join newline (List.filter (fun r => negb (blank r)) fragments).

(** "invert intensities" on the 0-255 scale. *)
Definition invert (gray : ndarray Z) : ndarray Z :=
mk_ndarray (rows gray) (cols gray) (List.map (fun x => 255 - x) (buf gray)).

(** The sum and the number of the samples of a buffer: the mean is their
    quotient. *)
Definition total (gray : ndarray Z) : Z := fold_right Z.add 0 (buf gray).
Definition count (gray : ndarray Z) : Z := Z.of_nat (length (buf gray)).

(** The width the upscale step gives an image of width [w]. *)
Definition scaled_width `{Collaborators} (w resize_width : Z) : result Z :=
and_then (Ocr.upscale (mk_ndarray 1 w []) resize_width) (fun img => inr (cols img)).

Definition width_1599_or_1600 `{Collaborators} (w : Z) : bool :=
match scaled_width w 1600 with
| inr W => (W =? 1600) || (W =? 1599)
| inl _ => false
end.


(** "fails with ImageNotFound": the [FileNotFoundError] of the code. *)
Definition ImageNotFound (path : str) : exn :=
FileNotFoundError (lit "Image not found: " ++ path).

(** An 8-bit buffer. *)
Definition samples_8bit (gray : ndarray Z) : Prop :=
Forall (fun x => 0 <= x <= 255) (buf gray).

(** One option of a structured question: [{option, isCorrect,
    explanation}] with a string, a boolean and a string. *)
Definition structured_option (v : pyval) : bool :=
  match v with
  | PDict d =>
      match dict_get (lit "option") d, dict_get (lit "isCorrect") d,
            dict_get (lit "explanation") d with
      | Some (PStr _), Some (PBool _), Some (PStr _) => true
      | _, _, _ => false
      end
  | _ => false
  end.

(** The structured record: question text and an ordered list of options. *)
Definition structured_record (v : pyval) : bool :=
  match v with
  | PDict d =>
      match dict_get (lit "question") d, dict_get (lit "answer") d with
      | Some (PStr _), Some (PList l) => forallb structured_option l
      | _, _ => false
      end
  | _ => false
  end.

End Spec.

(** ** Reading a Notion payload back *)

Module Payload.
Import Py.

Definition at_key (k : string) (v : pyval) : option pyval :=
  match v with
  | PDict d => dict_get (lit k) d
  | _ => None
  end.

Definition at_index (i : nat) (v : pyval) : option pyval :=
  match v with
  | PList l => l !! i
  | _ => None
  end.

(** One subscript: a key of a dict or a position of a list. *)
Inductive step := Key (k : string) | Idx (i : nat).

(** [v[s1][s2]...], [None] where a subscript does not apply. *)
Fixpoint walk (path : list step) (v : pyval) : option pyval :=
  match path with
  | [] => Some v
  | Key k :: rest =>
      match at_key k v with Some x => walk rest x | None => None end
  | Idx i :: rest =>
      match at_index i v with Some x => walk rest x | None => None end
  end.

(** The blocks under the numbered item of a payload. *)
Definition toggles_of (payload : pyval) : option (list pyval) :=
  match walk [Key "children"; Idx 0; Key "numbered_list_item"; Key "children"]
             payload with
  | Some (PList l) => Some l
  | _ => None
  end.

(** The text of the numbered item. *)
Definition question_of : pyval -> option pyval :=
  walk [Key "children"; Idx 0; Key "numbered_list_item"; Key "rich_text";
        Idx 0; Key "text"; Key "content"].

Definition block_type : pyval -> option pyval := walk [Key "type"].

(** The text a toggle always shows. *)
Definition toggle_text : pyval -> option pyval :=
  walk [Key "toggle"; Key "rich_text"; Idx 0; Key "text"; Key "content"].

(** What opens under a toggle. *)
Definition toggle_children : pyval -> option pyval :=
  walk [Key "toggle"; Key "children"].

(** The two runs of text of the one paragraph under a toggle: the
    verdict, with its colour, and the explanation. *)
Definition toggle_label : pyval -> option pyval :=
  walk [Key "toggle"; Key "children"; Idx 0; Key "paragraph"; Key "rich_text";
        Idx 0; Key "text"; Key "content"].

Definition toggle_color : pyval -> option pyval :=
  walk [Key "toggle"; Key "children"; Idx 0; Key "paragraph"; Key "rich_text";
        Idx 0; Key "annotations"; Key "color"].

Definition toggle_explanation : pyval -> option pyval :=
  walk [Key "toggle"; Key "children"; Idx 0; Key "paragraph"; Key "rich_text";
        Idx 1; Key "text"; Key "content"].

(** What [build_toggle] makes of one answer entry. *)
Definition toggle_for (ans toggle : pyval) : Prop :=
Notion.build_toggle ans = inr toggle.

End Payload.

(** ** Stand-in collaborators, for running the model on concrete inputs *)

Module StandIn.
Import Py.

Fixpoint table_get (k : str) (t : list (str * pyval)) : option pyval :=
  match t with
  | [] => None
  | (k', v) :: t' => if str_eqb k k' then Some v else table_get k t'
  end.

(** An engine that reads [fragments] off every image, a model that
    answers [reply], a JSON parser that knows the documents of [table],
    a Notion client that answers [notion_reply]; OpenCV kernels that keep
    the shape of an image. *)
Definition collaborators (fragments : result (list str)) (reply : result str)
    (table : list (str * pyval)) (notion_reply : result pyval) : Collaborators :=
  {| resize_samples := fun img W H =>
       repeat (hd (0, 0, 0) (buf img)) (Z.to_nat (W * H));
     bgr2gray := fun '(b, g, r) =>
       Z.shiftr (b * 1868 + g * 9617 + r * 4899 + 8192) 14;
     bilateralFilter := fun g _ _ _ => g;
     adaptiveThreshold := fun g maxValue _ _ =>
       mk_ndarray (rows g) (cols g)
                  (List.map (fun x => if 127 <? x then maxValue else 0) (buf g));
     jpeg_view := fun g =>
       mk_ndarray (rows g) (cols g) (List.map (fun x => (x, x, x)) (buf g));
     reader_load_error := fun _ _ => None;
     readtext := fun _ _ => fragments;
     prompt_format := fun v =>
       lit "Now analyze the following question: "
       ++ match v with PStr s => s | _ => [] end;
     model_invoke := fun _ => reply;
     json_loads := fun s =>
       match table_get s table with
       | Some v => inr v
       | None => inl (JSONDecodeError s)
       end;
     NOTION_PARENT := PStr (lit "parent-page");
     append_block_children := fun _ _ => notion_reply |}.

(** A uniform [h]-by-[w] image. *)
Definition flat_image (h w : Z) (px : bgr) : ndarray bgr :=
  mk_ndarray h w (repeat px (Z.to_nat (h * w))).

(** A process at its start whose disk holds one white image, one row of
    1600 samples, with the scratch directory writable or not. *)
Definition world0 (scratch_unwritable : bool) : World :=
  mk_World {[ lit "images/Prueba.png" := flat_image 1 1600 (255, 255, 255) ]}
           (fun _ => scratch_unwritable) None [].

Definition quoted (s : string) : str := [34%N] ++ lit s ++ [34%N].

(** The JSON text [{"question": "Q", "answer": [{"option": "A",
    "isCorrect": true, "explanation": "E"}]}] and the value
    [json.loads] makes of it. *)
Definition record_text : str :=
  lit "{" ++ quoted "question" ++ lit ": " ++ quoted "Q" ++ lit ", "
  ++ quoted "answer" ++ lit ": [{" ++ quoted "option" ++ lit ": " ++ quoted "A"
  ++ lit ", " ++ quoted "isCorrect" ++ lit ": true, "
  ++ quoted "explanation" ++ lit ": " ++ quoted "E" ++ lit "}]}".

Definition record_value : pyval :=
  PDict [ (lit "question", PStr (lit "Q"));
          (lit "answer", PList
             [ PDict [ (lit "option", PStr (lit "A"));
                       (lit "isCorrect", PBool true);
                       (lit "explanation", PStr (lit "E")) ] ]) ].

(** JSON documents the stand-in parser knows. *)
Definition documents : list (str * pyval) :=
  [ (record_text, record_value);
    (lit "[]", PList []);
    (lit "{}", PDict []);
    (lit "42", PInt 42) ].

End StandIn.

(** ** main.py *)

Module Main.
Import Py Run.

(** The process of [main.py]: the process of the OCR and LLM modules, and
    around it the text files written (by the path given to [open]), the
    directories [os.makedirs] was asked for and left in place, the paths
    where [os.makedirs] and [open] fail and with what, and what
    [datetime.utcnow().strftime('%Y%m%d_%H%M%S')] gives at this moment. *)
Record Host := mk_Host {
  base : World;
  text_files : gmap str str;
  made_dirs : list str;
  makedirs_error : str -> option exn;
  open_error : str -> option exn;
  utc_stamp : str
}.

Definition MM (A : Type) : Type := Host -> result A * Host.

Definition ret {A} (a : A) : MM A := fun h => (inr a, h).
Definition raise {A} (e : exn) : MM A := fun h => (inl e, h).
Definition bind {A B} (c : MM A) (k : A -> MM B) : MM B :=
  fun h =>
    match c h with
    | (inr a, h') => k a h'
    | (inl e, h') => (inl e, h')
    end.

Definition with_base (w : World) (h : Host) : Host :=
  mk_Host w (text_files h) (made_dirs h) (makedirs_error h) (open_error h)
          (utc_stamp h).

(** A step of the OCR, LLM or Notion modules, inside [main.py]. *)
Definition in_base {A} (c : M A) : MM A :=
  fun h => let (r, w) := c (base h) in (r, with_base w h).

Definition print (args : list pyval) : MM unit := in_base (Run.print args).

Declare Scope host_scope.
Delimit Scope host_scope with host.
Notation "'let*' x ':=' c 'in' k" := (bind c (fun x => k))
  (at level 10, x name, c at level 100, k at level 200,
   format "'[v' 'let*'  x  ':='  c  'in' '/' k ']'") : host_scope.
Local Open Scope host_scope.

Definition slash : N := 47%N.

(** [os.path.join(a, b)] on POSIX. *)
Definition path_join (a b : str) : str :=
  let absolute := match b with c :: _ => (c =? slash)%N | [] => false end in
  if absolute then b
  else
    match last a with
    | None => a ++ b
    | Some z => if (z =? slash)%N then a ++ b else a ++ [slash] ++ b
    end.

(** The longest prefix without a slash. *)
Fixpoint until_slash (s : str) : str :=
  match s with
  | c :: s' => if (c =? slash)%N then [] else c :: until_slash s'
  | [] => []
  end.

(** [os.path.basename(p)] on POSIX: what follows the last slash. *)
Definition basename (p : str) : str := rev (until_slash (rev p)).

(** [os.makedirs(d, exist_ok=True)] *)
Definition makedirs (d : str) : MM unit :=
  fun h =>
    match makedirs_error h d with
    | Some e => (inl e, h)
    | None =>
        (inr tt,
         mk_Host (base h) (text_files h) (made_dirs h ++ [d]) (makedirs_error h)
                 (open_error h) (utc_stamp h))
    end.

(** A code point UTF-8 cannot encode: a surrogate. *)
Definition surrogate (c : N) : bool := ((55296 <=? c) && (c <=? 57343))%N.

Definition set_text (path content : str) (h : Host) : Host :=
  mk_Host (base h) (<[path := content]> (text_files h)) (made_dirs h)
          (makedirs_error h) (open_error h) (utc_stamp h).

(** [with open(path, "w", encoding="utf-8") as f: f.write(content)]:
    opening truncates the file; writing a string UTF-8 cannot encode
    raises [UnicodeEncodeError], a [ValueError], and leaves the file
    empty. *)
Definition write_text (path content : str) : MM unit :=
  fun h =>
    match open_error h path with
    | Some e => (inl e, h)
    | None =>
        if existsb surrogate content
        then (inl ValueError, set_text path [] h)
        else (inr tt, set_text path content h)
    end.

(** [datetime.utcnow().strftime('%Y%m%d_%H%M%S')] *)
Definition utcnow_strftime : MM str := fun h => (inr (utc_stamp h), h).

Definition save_markdown (content out_dir : str) : MM str :=
  let* _ := makedirs out_dir in
  let* stamp := utcnow_strftime in
  let fname := lit "answer_" ++ stamp ++ lit ".md" in
  let path := path_join out_dir fname in
  let* _ := write_text path content in
  ret path.

(** [upload_question(md, title=...)]: [upload_question] of
    [utils/notion.py] has the one parameter [question_data], so binding the
    arguments fails and its body does not run. *)
Definition upload_question_titled (question_data title : pyval) : MM pyval :=
  raise (TypeError "upload_question() got an unexpected keyword argument 'title'").

(** [page.get(key)].  No value but a dict has a [get]; the
    [AttributeError] is not among [exn] and stands as an external one. *)
Definition get_method (page : pyval) (key : string) : MM pyval :=
  match page with
  | PDict d =>
      match dict_get (lit key) d with
      | Some v => ret v
      | None => ret PNone
      end
  | _ => raise (ExternalError "AttributeError" (lit "object has no attribute 'get'"))
  end.

Definition newline : str := lit (String "010" EmptyString).

(** The f-string of [main]. *)
Definition markdown (text answer : str) : str :=
  lit "# Question" ++ newline ++ newline ++ text ++ newline ++ newline
  ++ lit "# Answer" ++ newline ++ newline ++ answer ++ newline.

Section WithCollaborators.
Context `{Collaborators}.

Definition main (image_path : pyval) (lang : str) (use_gpu notion_upload : bool)
  : MM unit :=
  let* _ := print [PStr (lit "Running OCR...")] in
  let* text := in_base (Ocr.image_to_text image_path [lang] use_gpu) in
  if bool_decide (strip text = []) then
    let* _ := print [PStr (lit "No text extracted from image.")] in
    ret tt
  else
    let* _ := print [PStr (lit "Question text extracted:")] in
    let* _ := print [PStr (take 500 text); PStr (lit "..." ++ newline)] in
    let* _ := print [PStr (lit "Asking local LLM (Ollama) to answer...")] in
    let* answer := in_base (Llm.answer_question_with_llm (PStr text)) in
    let md := markdown text answer in
    let* saved := save_markdown md (lit "outputs") in
    let* _ := print [PStr (lit "Saved markdown to:"); PStr saved] in
    if notion_upload then
      let* _ := print [PStr (lit "Uploading to Notion...")] in
      let* page := upload_question_titled (PStr md) (PStr (basename saved)) in
      let* id := get_method page "id" in
      print [PStr (lit "Uploaded page:"); id]
    else ret tt.

End WithCollaborators.

(** A host at its start around a world: no file written, nothing that
    fails, the clock at the given stamp. *)
Definition host0 (w : World) (stamp : string) : Host :=
  mk_Host w ∅ [] (fun _ => None) (fun _ => None) (lit stamp).

(** The host when the clock has moved on to another second. *)
Definition at_stamp (stamp : str) (h : Host) : Host :=
  mk_Host (base h) (text_files h) (made_dirs h) (makedirs_error h) (open_error h)
          stamp.

(** The file [save_markdown] writes to, under [out_dir], at this moment. *)
Definition answer_path (out_dir : str) (h : Host) : str :=
  path_join out_dir (lit "answer_" ++ utc_stamp h ++ lit ".md").

End Main.

(** ** Names for the statements about the OCR module *)

Module Scratch.
Import Py.

Definition gray_path : str := lit "outputs/preprocessed-gray.jpg".
Definition blur_path : str := lit "outputs/preprocessed-blur.jpg".
Definition final_path : str := lit "outputs/preprocessed.jpg".

(** The three files [preprocess_image] writes. *)
Definition paths : list str := [gray_path; blur_path; final_path].

(** No outer whitespace: empty, or with a first and a last character that
    [str.isspace] rejects. *)
Definition starts_clean (s : str) : Prop :=
  match s with
  | [] => True
  | c :: _ => isspace c = false
  end.

Definition clean (s : str) : Prop := starts_clean s /\ starts_clean (rev s).

End Scratch.

(** ** The values [build_notion_payload] accepts *)

Module Shape.
Import Py.

Definition has_key (k : string) (d : dict) : bool :=
  match dict_get (lit k) d with Some _ => true | None => false end.

(** An item of the answer the loop body can read: a dict with the three
    keys, whatever their values. *)
Definition answer_entry (v : pyval) : bool :=
  match v with
  | PDict d => has_key "isCorrect" d && has_key "option" d && has_key "explanation" d
  | _ => false
  end.

(** A dict with a ["question"] and an ["answer"] that can be iterated and
    whose items are all answer entries. *)
Definition publishable (v : pyval) : bool :=
  match v with
  | PDict d =>
      match dict_get (lit "answer") d with
      | Some answer =>
          match iterate answer with
          | inr items => forallb answer_entry items && has_key "question" d
          | inl _ => false
          end
      | None => false
      end
  | _ => false
  end.

End Shape.

(** ** More stand-ins *)

Module StandIn2.
Import Py.

(** The stand-in collaborators, with an engine that loads for English
    alone. *)
Definition english_only (fragments : result (list str)) : Collaborators :=
  let c := StandIn.collaborators fragments (inr []) [] (inr PNone) in
  {| resize_samples := @resize_samples c;
     bgr2gray := @bgr2gray c;
     bilateralFilter := @bilateralFilter c;
     adaptiveThreshold := @adaptiveThreshold c;
     jpeg_view := @jpeg_view c;
     reader_load_error := fun langs _ =>
       if bool_decide (langs = [lit "en"]) then None
       else Some (ExternalError "easyocr" (lit "language is not supported"));
     readtext := @readtext c;
     prompt_format := @prompt_format c;
     model_invoke := @model_invoke c;
     json_loads := @json_loads c;
     NOTION_PARENT := @NOTION_PARENT c;
     append_block_children := @append_block_children c |}.

(** An answer entry whose [isCorrect] is the string ["false"]. *)
Definition string_flag_entry : pyval :=
  PDict [ (lit "option", PStr (lit "A"));
          (lit "isCorrect", PStr (lit "false"));
          (lit "explanation", PStr (lit "E")) ].

End StandIn2.

(** * Properties *)

Import Py Run.

(** ** binary64: results that stay finite *)

Section FloatRange.
Import Float64.

Lemma digits2_size (p : positive) : digits2_pos p = Pos.size p.
Proof. induction p; simpl; congruence. Qed.

(** [Zdigits2 m] is the number of binary digits of [m]. *)
Lemma Zdigits2_bounds (m : Z) :
  0 < m -> 2 ^ (Zdigits2 m - 1) <= m < 2 ^ Zdigits2 m.
Proof.
  destruct m as [|p|p]; try lia. intros _. simpl. rewrite digits2_size.
  pose proof (Pos.size_gt p) as Hgt. pose proof (Pos.size_le p) as Hle.
  split.
  - replace (Z.pos (Pos.size p)) with (Z.succ (Z.pos (Pos.size p) - 1)) in Hle by lia.
    assert (H2 : (2 ^ Pos.size p <= p~0)%positive) by exact Hle.
    apply Pos2Z.pos_le_pos in H2. rewrite Pos2Z.inj_pow in H2.
    replace (Z.pos (Pos.size p)) with (Z.succ (Z.pos (Pos.size p) - 1)) in H2 by lia.
    rewrite Z.pow_succ_r in H2 by lia. lia.
  - apply Pos2Z.pos_lt_pos in Hgt. by rewrite Pos2Z.inj_pow in Hgt.
Qed.

Lemma Zdigits2_nonneg (m : Z) : 0 <= Zdigits2 m.
Proof. destruct m; simpl; lia. Qed.

Lemma Zdigits2_pos (m : Z) : 0 < m -> 1 <= Zdigits2 m.
Proof. destruct m; simpl; lia. Qed.

Lemma Zdigits2_le (m k : Z) : 0 <= m -> 0 <= k -> m < 2 ^ k -> Zdigits2 m <= k.
Proof.
  intros Hm Hk Hlt. destruct (Z.eq_dec m 0) as [->|Hne]; [simpl; lia|].
  destruct (Zdigits2_bounds m) as [Hlo _]; [lia|].
  destruct (Z.le_gt_cases (Zdigits2 m) k) as [|Hgt]; [done|].
  assert (2 ^ k <= 2 ^ (Zdigits2 m - 1)) by (apply Z.pow_le_mono_r; lia). lia.
Qed.

Lemma Zdigits2_lt_pow (m : Z) : 0 <= m -> m < 2 ^ Zdigits2 m.
Proof.
  intros Hm. destruct (Z.eq_dec m 0) as [->|Hne]; [simpl; lia|].
  apply Zdigits2_bounds. lia.
Qed.

Lemma shr_1_m (r : shr_record) :
  0 <= shr_m r -> shr_m (shr_1 r) = shr_m r / 2.
Proof.
  destruct r as [m r s]. cbn [shr_m]. intros Hm.
  destruct m as [|[p|p|]|p]; cbn [shr_1 shr_m]; try lia.
  - reflexivity.
  - apply (Z.div_unique (Z.pos p~1) 2 (Z.pos p) 1); lia.
  - apply (Z.div_unique (Z.pos p~0) 2 (Z.pos p) 0); lia.
  - reflexivity.
Qed.

Lemma iter_pos_shr_1 (p : positive) (r : shr_record) :
  0 <= shr_m r ->
  shr_m (SpecFloat.iter_pos shr_1 p r) = shr_m r / 2 ^ Z.pos p.
Proof.
  revert r. induction p as [p IH|p IH|]; intros r Hr; cbn [SpecFloat.iter_pos].
  - assert (H1 : 0 <= shr_m (shr_1 r)) by (rewrite shr_1_m by done; apply Z.div_pos; lia).
    assert (H2 : 0 <= shr_m (SpecFloat.iter_pos shr_1 p (shr_1 r)))
      by (rewrite IH by done; apply Z.div_pos; lia).
    rewrite IH, IH, shr_1_m by done.
    assert (Hp : 0 < 2 ^ Z.pos p) by (apply Z.pow_pos_nonneg; lia).
    rewrite !Z.div_div by lia. f_equal.
    replace (Z.pos p~1) with (1 + Z.pos p + Z.pos p) by lia.
    rewrite !Z.pow_add_r, Z.pow_1_r by lia. ring.
  - assert (H2 : 0 <= shr_m (SpecFloat.iter_pos shr_1 p r))
      by (rewrite IH by done; apply Z.div_pos; lia).
    assert (Hp : 0 < 2 ^ Z.pos p) by (apply Z.pow_pos_nonneg; lia).
    rewrite IH, IH by done. rewrite Z.div_div by lia. f_equal.
    replace (Z.pos p~0) with (Z.pos p + Z.pos p) by lia.
    rewrite Z.pow_add_r by lia. ring.
  - rewrite shr_1_m by done. reflexivity.
Qed.

Lemma shr_record_of_loc_m (m : Z) (l : location) : shr_m (shr_record_of_loc m l) = m.
Proof. by destruct l as [|[]]. Qed.

(** The first half of a rounding: the exponent is raised to the format's,
    and the mantissa loses the digits below it. *)
Lemma shr_fexp_spec (m e : Z) (l : location) :
  0 <= m ->
  let e' := Z.max e (fexp prec emax (Zdigits2 m + e)) in
  snd (shr_fexp prec emax m e l) = e'
  /\ shr_m (fst (shr_fexp prec emax m e l)) = m / 2 ^ (e' - e).
Proof.
  intros Hm e'. unfold shr_fexp, shr.
  destruct (fexp prec emax (Zdigits2 m + e) - e) as [|p|p] eqn:En; simpl.
  - rewrite shr_record_of_loc_m. replace (e' - e) with 0 by lia.
    by rewrite Z.div_1_r; split; [lia|].
  - rewrite iter_pos_shr_1 by (by rewrite shr_record_of_loc_m).
    rewrite shr_record_of_loc_m. replace (e' - e) with (Z.pos p) by lia.
    split; [lia | done].
  - rewrite shr_record_of_loc_m. replace (e' - e) with 0 by lia.
    by rewrite Z.div_1_r; split; [lia|].
Qed.

Lemma Zdigits2_shift (m k : Z) :
  0 <= m -> 0 <= k -> Zdigits2 (m / 2 ^ k) <= Z.max 0 (Zdigits2 m - k).
Proof.
  intros Hm Hk. pose proof (Zdigits2_lt_pow m Hm) as Hlt.
  pose proof (Zdigits2_nonneg m) as Hd.
  assert (Hpos : 0 < 2 ^ k) by (apply Z.pow_pos_nonneg; lia).
  assert (Hq : 0 <= m / 2 ^ k) by (apply Z.div_pos; lia).
  apply Zdigits2_le; [done | lia |].
  destruct (Z.le_gt_cases k (Zdigits2 m)) as [Hle|Hgt].
  - rewrite Z.max_r by lia. apply Z.div_lt_upper_bound; [done|].
    rewrite <- Z.pow_add_r by lia. by replace (k + (Zdigits2 m - k)) with (Zdigits2 m) by lia.
  - rewrite Z.max_l by lia. simpl.
    assert (2 ^ Zdigits2 m <= 2 ^ k) by (apply Z.pow_le_mono_r; lia).
    rewrite Z.div_small; lia.
Qed.

Lemma round_nearest_even_bounds (m : Z) (l : location) :
  0 <= m -> m <= round_nearest_even m l <= m + 1.
Proof. intros Hm. destruct l as [|[]]; simpl; try lia. destruct (Z.even m); lia. Qed.

Lemma Zdigits2_succ (m m' : Z) :
  0 <= m -> 0 <= m' <= m + 1 -> Zdigits2 m' <= Zdigits2 m + 1.
Proof.
  intros Hm Hm'. pose proof (Zdigits2_lt_pow m Hm) as Hlt.
  pose proof (Zdigits2_nonneg m) as Hd.
  apply Zdigits2_le; [lia | lia |].
  rewrite Z.pow_add_r by lia. lia.
Qed.

Lemma fexp_eq (x : Z) : fexp prec emax x = Z.max (x - 53) (-1074).
Proof. reflexivity. Qed.

Lemma div_pow2_pos (m k : Z) :
  0 < m -> 0 <= k <= Zdigits2 m - 1 -> 0 < m / 2 ^ k.
Proof.
  intros Hm Hk. destruct (Zdigits2_bounds m Hm) as [Hlo _].
  assert (2 ^ k <= 2 ^ (Zdigits2 m - 1)) by (apply Z.pow_le_mono_r; lia).
  apply Z.div_str_pos. split; [apply Z.pow_pos_nonneg; lia | lia].
Qed.

(** Rounding a mantissa and exponent of moderate size gives a zero or a
    finite double, of about the same size; it gives a zero only from a zero
    mantissa or below the subnormal range. *)
Lemma binary_round_aux_range (s : bool) (m e : Z) (l : location) (B : Z) :
  0 <= m -> Zdigits2 m + e <= B -> e <= B -> -1074 <= B <= 971 ->
  (binary_round_aux prec emax s m e l = S754_zero s /\ ~ (0 < m /\ -1074 <= e))
  \/ (exists m' e',
        binary_round_aux prec emax s m e l = S754_finite s m' e'
        /\ Z.pos (digits2_pos m') + e' <= B + 1 /\ e <= e').
Proof.
  intros Hm Hmag He HB. unfold binary_round_aux.
  destruct (shr_fexp_spec m e l Hm) as [He' Hm1].
  destruct (shr_fexp prec emax m e l) as [mrs' e'] eqn:E1. cbn [fst snd] in He', Hm1.
  rewrite <- He' in Hm1. rewrite fexp_eq in He'.
  set (m1 := shr_m mrs') in *.
  assert (Hm1pos : 0 <= m1).
  { rewrite Hm1. apply Z.div_pos; [done | apply Z.pow_pos_nonneg; lia]. }
  pose proof (round_nearest_even_bounds m1 (loc_of_shr_record mrs') Hm1pos) as Hrne.
  set (m2 := round_nearest_even m1 (loc_of_shr_record mrs')) in *.
  assert (Hm2pos : 0 <= m2) by lia.
  destruct (shr_fexp_spec m2 e' loc_Exact Hm2pos) as [He'' Hm3].
  destruct (shr_fexp prec emax m2 e' loc_Exact) as [mrs'' e''] eqn:E2.
  cbn [fst snd] in He'', Hm3. rewrite <- He'' in Hm3. rewrite fexp_eq in He''.
  set (m3 := shr_m mrs'') in *.
  assert (Hd1 : Zdigits2 m1 <= Z.max 0 (Zdigits2 m - (e' - e))).
  { rewrite Hm1. apply Zdigits2_shift; lia. }
  assert (Hd2 : Zdigits2 m2 <= Zdigits2 m1 + 1) by (apply Zdigits2_succ; lia).
  assert (Hd3 : Zdigits2 m3 <= Z.max 0 (Zdigits2 m2 - (e'' - e'))).
  { rewrite Hm3. apply Zdigits2_shift; lia. }
  pose proof (Zdigits2_nonneg m) as Hdm.
  pose proof (Zdigits2_nonneg m1) as Hdm1.
  pose proof (Zdigits2_nonneg m2) as Hdm2.
  assert (Hm3pos : 0 <= m3).
  { rewrite Hm3. apply Z.div_pos; [done | apply Z.pow_pos_nonneg; lia]. }
  destruct m3 as [|p|p] eqn:Em3; [left | right | lia].
  - split; [reflexivity|]. intros [Hmpos Helo].
    assert (0 < m1).
    { rewrite Hm1. apply div_pow2_pos; [done|].
      pose proof (Zdigits2_pos m Hmpos). lia. }
    assert (Hm2s : 0 < m2) by lia.
    assert (0 < m2 / 2 ^ (e'' - e')).
    { apply div_pow2_pos; [done|]. pose proof (Zdigits2_pos m2 Hm2s). lia. }
    lia.
  - exists p, e''. simpl in Hd3.
    assert (Hle : e'' <= 971) by lia.
    apply Z.leb_le in Hle. change (emax - prec) with 971. rewrite Hle.
    split; [reflexivity | lia].
Qed.

Lemma digits2_pos_iter_xO (p d : positive) :
  Z.pos (digits2_pos (Pos.iter xO p d)) = Z.pos (digits2_pos p) + Z.pos d.
Proof.
  induction d as [|d IH] using Pos.peano_ind.
  - simpl. lia.
  - rewrite Pos.iter_succ. simpl. lia.
Qed.

(** An integer below [2^53] converts to a finite, non-zero double. *)
Lemma of_int_range (z : Z) :
  0 < z < 2 ^ 53 ->
  exists m e,
    of_int z = inr (S754_finite false m e)
    /\ Z.pos (digits2_pos m) + e <= 54 /\ -52 <= e.
Proof.
  intros Hz. destruct z as [|p|p]; try lia.
  unfold of_int, of_Z, binary_normalize, binary_round.
  assert (Hdp : Z.pos (digits2_pos p) <= 53).
  { change (Z.pos (digits2_pos p)) with (Zdigits2 (Z.pos p)).
    apply Zdigits2_le; lia. }
  destruct (shl_align p 0 (fexp prec emax (Z.pos (digits2_pos p) + 0)))
    as [mz ez] eqn:Ealign.
  assert (Hal : Z.pos (digits2_pos mz) + ez = Z.pos (digits2_pos p) /\ -52 <= ez <= 0).
  { unfold shl_align in Ealign. rewrite fexp_eq in Ealign.
    destruct (Z.max (Z.pos (digits2_pos p) + 0 - 53) (-1074) - 0) as [|d|d] eqn:Ed;
      injection Ealign as <- <-; try lia.
    rewrite digits2_pos_iter_xO. lia. }
  destruct (binary_round_aux_range false (Z.pos mz) ez loc_Exact 53)
    as [[_ Hz0]|(m' & e' & Hr & Hmag & Hlo)]; simpl; try lia.
  rewrite Hr. exists m', e'. split; [reflexivity | lia].
Qed.

Lemma digits2_pos_mul (a b : positive) :
  Z.pos (digits2_pos (a * b)) <= Z.pos (digits2_pos a) + Z.pos (digits2_pos b).
Proof.
  change (Z.pos (digits2_pos (a * b))) with (Zdigits2 (Z.pos a * Z.pos b)).
  pose proof (Zdigits2_lt_pow (Z.pos a) ltac:(lia)) as Ha.
  pose proof (Zdigits2_lt_pow (Z.pos b) ltac:(lia)) as Hb.
  simpl in Ha, Hb.
  apply Zdigits2_le; [lia | lia |]. rewrite Z.pow_add_r by lia. nia.
Qed.

(** [int(n * x)] returns when [n] is below [2^53] and [x] is a zero or a
    finite double of moderate size. *)
Lemma int_mul_returns (n : Z) (x : spec_float) :
  0 < n < 2 ^ 53 ->
  match x with
  | S754_zero _ => True
  | S754_finite _ m e => Z.pos (digits2_pos m) + e <= 900
  | _ => False
  end ->
  exists k, int_mul n x = inr k.
Proof.
  intros Hn Hx. unfold int_mul, mul_int_float.
  destruct (of_int_range n Hn) as (mn & en & -> & Hmag & Hlo). cbn [and_then].
  destruct x as [sx|sx| |sx mx ex]; try done.
  - by exists 0.
  - unfold SFmul. pose proof (digits2_pos_mul mn mx) as Hmul.
    destruct (binary_round_aux_range (xorb false sx) (Z.pos (mn * mx)) (en + ex)
                loc_Exact 954)
      as [[-> _]|(m' & e' & -> & _)]; try (simpl; lia); simpl; eauto.
Qed.

(** [a / b] returns a zero or a finite double of moderate size when both
    are positive and below [2^53]. *)
Lemma truediv_int_range (a b : Z) :
  0 < a < 2 ^ 53 -> 0 < b < 2 ^ 53 ->
  exists x,
    truediv_int a b = inr x
    /\ match x with
       | S754_zero _ => True
       | S754_finite _ m e => Z.pos (digits2_pos m) + e <= 900
       | _ => False
       end.
Proof.
  intros Ha Hb. unfold truediv_int.
  destruct (Z.eqb_spec b 0) as [->|_]; [lia|].
  destruct (of_int_range a Ha) as (m1 & e1 & -> & Hmag1 & Hlo1).
  destruct (of_int_range b Hb) as (m2 & e2 & -> & Hmag2 & Hlo2).
  cbn [and_then]. eexists. split; [reflexivity|].
  unfold SFdiv, SFdiv_core_binary. rewrite fexp_eq.
  set (e' := Z.min _ (e1 - e2)).
  set (m' := match e1 - e2 - e' with
             | 0 => Z.pos m1
             | Z.pos _ => Z.shiftl (Z.pos m1) (e1 - e2 - e')
             | Z.neg _ => 0
             end).
  assert (Hs : 0 <= e1 - e2 - e') by lia.
  assert (Hm' : m' = Z.pos m1 * 2 ^ (e1 - e2 - e')).
  { subst m'. destruct (e1 - e2 - e') as [|p|p] eqn:Es; try lia.
    by rewrite Z.shiftl_mul_pow2. }
  assert (Hq : Z.div_eucl m' (Z.pos m2) = (m' / Z.pos m2, m' mod Z.pos m2)).
  { unfold Z.div, Z.modulo. by destruct (Z.div_eucl m' (Z.pos m2)). }
  rewrite Hq.
  assert (Hpow : 0 < 2 ^ (e1 - e2 - e')) by (apply Z.pow_pos_nonneg; lia).
  assert (Hm'pos : 0 <= m') by (rewrite Hm'; lia).
  assert (Hq0 : 0 <= m' / Z.pos m2) by (apply Z.div_pos; lia).
  assert (Hqle : m' / Z.pos m2 <= m').
  { apply Z.div_le_upper_bound; [lia|]. nia. }
  assert (Hdq : Zdigits2 (m' / Z.pos m2) <= Z.pos (digits2_pos m1) + (e1 - e2 - e')).
  { apply Zdigits2_le; [done | lia |].
    pose proof (Zdigits2_lt_pow (Z.pos m1) ltac:(lia)) as Hlt. simpl in Hlt.
    rewrite Z.pow_add_r by lia. nia. }
  destruct (binary_round_aux_range (xorb false false) (m' / Z.pos m2) e'
              (new_location (Z.pos m2) (m' mod Z.pos m2)) 899)
    as [[-> _]|(mq & eq & -> & Hmq & _)]; try lia; done.
Qed.


End FloatRange.

(** ** binary64: the mean against the threshold *)

Section FloatCompare.
Import Float64.

(** A 53-digit mantissa with an exponent in range is a double as it is. *)
Lemma binary_round_aux_exact (s : bool) (m : positive) (e : Z) :
  Z.pos (digits2_pos m) = 53 -> -1074 <= e <= 971 ->
  binary_round_aux prec emax s (Z.pos m) e loc_Exact = S754_finite s m e.
Proof.
  intros Hd He. unfold binary_round_aux, shr_fexp.
  cbn [Zdigits2]. rewrite Hd, fexp_eq.
  replace (Z.max (53 + e - 53) (-1074) - e) with 0 by lia.
  cbn [shr shr_record_of_loc loc_of_shr_record shr_m round_nearest_even Zdigits2].
  rewrite Hd, fexp_eq.
  replace (Z.max (53 + e - 53) (-1074) - e) with 0 by lia.
  cbn [shr shr_record_of_loc shr_m].
  assert (Hle : (e <=? emax - prec) = true) by (apply Z.leb_le; unfold emax, prec; lia).
  by rewrite Hle.
Qed.

Lemma pos_iter_xO (p d : positive) : Z.pos (Pos.iter xO p d) = Z.pos p * 2 ^ Z.pos d.
Proof.
  induction d as [|d IH] using Pos.peano_ind.
  - simpl. lia.
  - rewrite Pos.iter_succ, Pos2Z.inj_xO, IH, Pos2Z.inj_succ, Z.pow_succ_r by lia. ring.
Qed.

(** A positive integer below [2^53] converts exactly: the mantissa is the
    integer shifted up to 53 digits. *)
Lemma of_Z_exact (z : Z) :
  0 < z < 2 ^ 53 ->
  exists m e,
    of_Z z = S754_finite false m e
    /\ Z.pos (digits2_pos m) = 53
    /\ -52 <= e <= 0
    /\ Z.pos m = z * 2 ^ (- e).
Proof.
  intros Hz. destruct z as [|p|p]; try lia.
  unfold of_Z, binary_normalize, binary_round.
  assert (Hdp : 1 <= Z.pos (digits2_pos p) <= 53).
  { split; [lia|]. change (Z.pos (digits2_pos p)) with (Zdigits2 (Z.pos p)).
    apply Zdigits2_le; lia. }
  unfold shl_align. rewrite fexp_eq.
  destruct (Z.max (Z.pos (digits2_pos p) + 0 - 53) (-1074) - 0) as [|d|d] eqn:Ed.
  - exists p, 0. rewrite binary_round_aux_exact by lia.
    split; [done|]. split; [lia|]. split; [lia|]. simpl. lia.
  - lia.
  - exists (Pos.iter xO p d), (Z.max (Z.pos (digits2_pos p) + 0 - 53) (-1074)).
    rewrite binary_round_aux_exact; [| rewrite digits2_pos_iter_xO; lia | lia].
    split; [done|]. split; [rewrite digits2_pos_iter_xO; lia|]. split; [lia|].
    rewrite pos_iter_xO. f_equal. f_equal. lia.
Qed.

Lemma Zdigits2_eq (x k : Z) :
  1 <= k -> 2 ^ (k - 1) <= x < 2 ^ k -> Zdigits2 x = k.
Proof.
  intros Hk [Hlo Hhi].
  assert (Hx : 0 < x) by (pose proof (Z.pow_pos_nonneg 2 (k - 1)); lia).
  pose proof (Zdigits2_le x k ltac:(lia) ltac:(lia) Hhi) as Hle.
  destruct (Zdigits2_bounds x Hx) as [_ Hup].
  pose proof (Zdigits2_pos x Hx) as Hd1.
  destruct (Z.eq_dec (Zdigits2 x) k) as [|Hne]; [done|].
  assert (2 ^ Zdigits2 x <= 2 ^ (k - 1)) by (apply Z.pow_le_mono_r; lia). lia.
Qed.

(** Rounding a quotient of 53 or 54 digits: the result is a normal
    double, one of the two neighbours of the quotient at 53 digits. *)
Lemma binary_round_aux_normal (s : bool) (q e : Z) (l : location) :
  2 ^ 52 <= q < 2 ^ 54 -> -1074 <= e <= 900 ->
  exists n m3 e3,
    0 <= n <= 1
    /\ 2 ^ 52 <= q / 2 ^ n < 2 ^ 53
    /\ binary_round_aux prec emax s q e l = S754_finite s m3 e3
    /\ Z.pos (digits2_pos m3) = 53
    /\ e + n <= e3 <= e + n + 1
    /\ q / 2 ^ n <= Z.pos m3 * 2 ^ (e3 - (e + n)) <= q / 2 ^ n + 1.
Proof.
  intros Hq He. unfold binary_round_aux.
  assert (Hq0 : 0 <= q) by lia.
  destruct (shr_fexp_spec q e l Hq0) as [He' Hm1].
  destruct (shr_fexp prec emax q e l) as [mrs' e'] eqn:E1. cbn [fst snd] in He', Hm1.
  rewrite <- He' in Hm1. rewrite fexp_eq in He'.
  set (m1 := shr_m mrs') in *.
  assert (Hn : exists n, 0 <= n <= 1 /\ Zdigits2 q = 53 + n
                         /\ 2 ^ 52 <= q / 2 ^ n < 2 ^ 53).
  { destruct (Z.lt_ge_cases q (2 ^ 53)) as [Hlt|Hge].
    - exists 0. rewrite Z.div_1_r. split; [lia|]. split; [|lia].
      apply Zdigits2_eq; [lia|]. change (53 + 0 - 1) with 52. lia.
    - exists 1. split; [lia|]. split.
      + apply Zdigits2_eq; [lia|]. change (53 + 1 - 1) with 53.
        change (53 + 1) with 54. lia.
      + change (2 ^ 1) with 2. split.
        * apply Z.div_le_lower_bound; lia.
        * apply Z.div_lt_upper_bound; lia. }
  destruct Hn as (n & Hn01 & Hdq & Hm1r).
  assert (He'n : e' = e + n) by lia.
  replace (e' - e) with n in Hm1 by lia.
  pose proof (round_nearest_even_bounds m1 (loc_of_shr_record mrs') ltac:(lia)) as Hrne.
  set (m2 := round_nearest_even m1 (loc_of_shr_record mrs')) in *.
  assert (Hm2pos : 0 <= m2) by lia.
  destruct (shr_fexp_spec m2 e' loc_Exact Hm2pos) as [He'' Hm3].
  destruct (shr_fexp prec emax m2 e' loc_Exact) as [mrs'' e''] eqn:E2.
  cbn [fst snd] in He'', Hm3. rewrite <- He'' in Hm3. rewrite fexp_eq in He''.
  exists n.
  destruct (Z.lt_ge_cases m2 (2 ^ 53)) as [Hlt|Hge].
  - assert (Hd2 : Zdigits2 m2 = 53).
    { apply Zdigits2_eq; [lia|]. change (53 - 1) with 52. lia. }
    assert (He3 : e'' = e') by lia.
    rewrite He3, Z.sub_diag, Z.div_1_r in Hm3.
    destruct (shr_m mrs'') as [|p|p] eqn:Em3; try lia.
    exists p, e''. rewrite <- Hm1.
    assert (Hle : (e'' <=? emax - prec) = true)
      by (apply Z.leb_le; unfold emax, prec; lia).
    rewrite Hle. split; [done|]. split; [lia|]. split; [done|]. split.
    { change (Z.pos (digits2_pos p)) with (Zdigits2 (Z.pos p)). by rewrite Hm3. }
    split; [lia|]. replace (e'' - (e + n)) with 0 by lia. lia.
  - assert (Hm2 : m2 = 2 ^ 53) by lia.
    assert (Hd2 : Zdigits2 m2 = 54).
    { apply Zdigits2_eq; [lia|]. rewrite Hm2. change (54 - 1) with 53.
      split; [lia|]. apply Z.pow_lt_mono_r; lia. }
    assert (He3 : e'' = e' + 1) by lia.
    replace (e'' - e') with 1 in Hm3 by lia.
    rewrite Hm2 in Hm3. change (2 ^ 53 / 2 ^ 1) with (2 ^ 52) in Hm3.
    destruct (shr_m mrs'') as [|p|p] eqn:Em3; try (change (2 ^ 52) with 4503599627370496 in Hm3; lia).
    exists p, e''. rewrite <- Hm1.
    assert (Hle : (e'' <=? emax - prec) = true)
      by (apply Z.leb_le; unfold emax, prec; lia).
    rewrite Hle. split; [done|]. split; [lia|]. split; [done|]. split.
    { change (Z.pos (digits2_pos p)) with (Zdigits2 (Z.pos p)). rewrite Hm3.
      apply Zdigits2_eq; [lia|]. change (53 - 1) with 52.
      split; [lia|]. apply Z.pow_lt_mono_r; lia. }
    split; [lia|]. replace (e'' - (e + n)) with 1 by lia.
    rewrite Hm3. change (2 ^ 52 * 2 ^ 1) with (2 ^ 53). lia.
Qed.

(** Two normal positive doubles compare as their values do. *)
Lemma SFltb_normal (m M : positive) (e E K : Z) :
  Z.pos (digits2_pos m) = 53 -> Z.pos (digits2_pos M) = 53 ->
  0 <= e + K -> 0 <= E + K ->
  SFltb (S754_finite false m e) (S754_finite false M E) = true
  <-> Z.pos m * 2 ^ (e + K) < Z.pos M * 2 ^ (E + K).
Proof.
  intros Hm HM He HE.
  destruct (Zdigits2_bounds (Z.pos m) ltac:(lia)) as [Hmlo Hmhi].
  destruct (Zdigits2_bounds (Z.pos M) ltac:(lia)) as [HMlo HMhi].
  cbn [Zdigits2] in *. rewrite Hm in *. rewrite HM in *.
  change (53 - 1) with 52 in *.
  assert (Hpe : 0 < 2 ^ (e + K)) by (apply Z.pow_pos_nonneg; lia).
  assert (HpE : 0 < 2 ^ (E + K)) by (apply Z.pow_pos_nonneg; lia).
  unfold SFltb, SFcompare.
  destruct (Z.compare_spec e E) as [Heq|Hlt|Hgt].
  - subst E. change (Pos.compare_cont Eq m M) with (Pos.compare m M).
    rewrite Pos2Z.inj_compare.
    destruct (Z.compare_spec (Z.pos m) (Z.pos M)) as [Hc|Hc|Hc]; split; try done.
    + rewrite Hc. lia.
    + intros _. apply Z.mul_lt_mono_pos_r; lia.
    + intros Hv. apply Z.mul_lt_mono_pos_r in Hv; lia.
  - split; [intros _|done].
    assert (Hstep : 2 * 2 ^ (e + K) <= 2 ^ (E + K)).
    { replace (E + K) with ((E - e - 1) + (1 + (e + K))) by lia.
      rewrite (Z.pow_add_r 2 (E - e - 1)), (Z.pow_add_r 2 1) by lia.
      change (2 ^ 1) with 2.
      assert (0 < 2 ^ (E - e - 1)) by (apply Z.pow_pos_nonneg; lia). nia. }
    change (2 ^ 53) with (2 * 2 ^ 52) in Hmhi. nia.
  - split; [done|]. intros Hv.
    assert (Hstep : 2 * 2 ^ (E + K) <= 2 ^ (e + K)).
    { replace (e + K) with ((e - E - 1) + (1 + (E + K))) by lia.
      rewrite (Z.pow_add_r 2 (e - E - 1)), (Z.pow_add_r 2 1) by lia.
      change (2 ^ 1) with 2.
      assert (0 < 2 ^ (e - E - 1)) by (apply Z.pow_pos_nonneg; lia). nia. }
    change (2 ^ 53) with (2 * 2 ^ 52) in HMhi. nia.
Qed.

Lemma of_Z_100 : of_Z 100 = S754_finite false 7036874417766400 (-46).
Proof. reflexivity. Qed.

(** The integer side of the comparison: a quotient [t] of 53 digits, its
    neighbour [V] after rounding, and the threshold at the same scale. *)
Lemma threshold_arith (total count P t V : Z) :
  0 < count < 2 ^ 45 -> 0 < total -> 0 < P ->
  t = total * P / count -> 2 ^ 52 <= t -> t <= V <= t + 1 ->
  V < 100 * P <-> total < 100 * count.
Proof.
  intros Hc Ht HP Hdef Hbig HV.
  assert (Hmul : t * count <= total * P).
  { rewrite Hdef, Z.mul_comm. apply Z.mul_div_le. lia. }
  change (2 ^ 45) with 35184372088832 in Hc.
  change (2 ^ 52) with 4503599627370496 in Hbig.
  split.
  - intros Hlt. destruct (Z.lt_ge_cases total (100 * count)) as [|Hge]; [done|].
    assert (100 * P <= t); [|lia].
    rewrite Hdef. apply Z.div_le_lower_bound; [lia|]. nia.
  - intros Hlt.
    destruct (Z.lt_ge_cases (t + 1) (100 * P)) as [|Hge]; [lia|].
    assert (HPc : P <= count) by nia.
    assert (t * count < 100 * P * count) by nia.
    assert (t < 100 * P) by nia.
    lia.
Qed.

(** The binary64 mean of an array of fewer than [2^45] 8-bit samples is
    below 100 exactly when the exact mean is. *)
Lemma mean_below_100 (total count : Z) :
  0 < count < 2 ^ 45 -> 0 <= total <= 255 * count ->
  SFltb (SFdiv prec emax (of_Z total) (of_Z count)) (of_Z 100) = true
  <-> total < 100 * count.
Proof.
  intros Hc Ht.
  assert (H45 : 2 ^ 45 * 256 = 2 ^ 53) by reflexivity.
  destruct (of_Z_exact count ltac:(lia)) as (m2 & e2 & -> & Hd2 & He2 & Hv2).
  destruct (Z.eq_dec total 0) as [->|Hne].
  { split; [lia | done]. }
  destruct (of_Z_exact total ltac:(lia)) as (m1 & e1 & -> & Hd1 & He1 & Hv1).
  rewrite of_Z_100. unfold SFdiv, SFdiv_core_binary. cbn [Zdigits2 xorb].
  rewrite Hd1, Hd2, fexp_eq.
  replace (Z.min (Z.max (53 + e1 - (53 + e2) - 53) (-1074)) (e1 - e2))
    with (e1 - e2 - 53) by lia.
  replace (e1 - e2 - (e1 - e2 - 53)) with 53 by lia.
  rewrite Z.shiftl_mul_pow2 by lia.
  set (e' := e1 - e2 - 53).
  assert (Hq : Z.div_eucl (Z.pos m1 * 2 ^ 53) (Z.pos m2)
               = (Z.pos m1 * 2 ^ 53 / Z.pos m2, (Z.pos m1 * 2 ^ 53) mod Z.pos m2)).
  { unfold Z.div, Z.modulo. by destruct (Z.div_eucl _ (Z.pos m2)). }
  rewrite Hq. set (q := Z.pos m1 * 2 ^ 53 / Z.pos m2).
  destruct (Zdigits2_bounds (Z.pos m1) ltac:(lia)) as [Hm1lo Hm1hi].
  destruct (Zdigits2_bounds (Z.pos m2) ltac:(lia)) as [Hm2lo Hm2hi].
  cbn [Zdigits2] in Hm1lo, Hm1hi, Hm2lo, Hm2hi.
  rewrite Hd1 in Hm1lo, Hm1hi. rewrite Hd2 in Hm2lo, Hm2hi.
  change (53 - 1) with 52 in *.
  change (2 ^ 52) with 4503599627370496 in Hm1lo, Hm2lo.
  change (2 ^ 53) with 9007199254740992 in Hm1hi, Hm2hi.
  assert (Hqr : 2 ^ 52 <= q < 2 ^ 54).
  { subst q. change (2 ^ 52) with 4503599627370496.
    change (2 ^ 53) with 9007199254740992. change (2 ^ 54) with 18014398509481984.
    split.
    - apply Z.div_le_lower_bound; lia.
    - apply Z.div_lt_upper_bound; lia. }
  destruct (binary_round_aux_normal false q e'
              (new_location (Z.pos m2) ((Z.pos m1 * 2 ^ 53) mod Z.pos m2))
              Hqr ltac:(subst e'; lia))
    as (n & m3 & e3 & Hn & Htr & -> & Hd3 & He3 & HV).
  rewrite (SFltb_normal m3 7036874417766400 e3 (-46) 200 Hd3 eq_refl)
    by (subst e'; lia).
  (* everything at the scale of the quotient *)
  set (E := - (e' + n)).
  assert (HE : 0 <= E <= 105) by (subst E e'; lia).
  set (V := Z.pos m3 * 2 ^ (e3 - (e' + n))) in *.
  assert (HP : 0 < 2 ^ E) by (apply Z.pow_pos_nonneg; lia).
  assert (HS : 0 < 2 ^ (200 - E)) by (apply Z.pow_pos_nonneg; lia).
  assert (Hleft : Z.pos m3 * 2 ^ (e3 + 200) = V * 2 ^ (200 - E)).
  { subst V. replace (e3 + 200) with ((e3 - (e' + n)) + (200 - E)) by (subst E; lia).
    rewrite Z.pow_add_r by lia. ring. }
  assert (Hright : 7036874417766400 * 2 ^ (-46 + 200) = 100 * 2 ^ E * 2 ^ (200 - E)).
  { rewrite <- Z.mul_assoc, <- Z.pow_add_r by lia.
    replace (E + (200 - E)) with 200 by lia. reflexivity. }
  rewrite Hleft, Hright.
  assert (Htq : q / 2 ^ n = total * 2 ^ E / count).
  { subst q. rewrite Z.div_div by (try apply Z.pow_pos_nonneg; lia).
    rewrite Hv1, Hv2.
    assert (Hexp : - e1 + 53 = E + (- e2 + n)) by (subst E e'; lia).
    rewrite <- Z.mul_assoc, <- Z.pow_add_r, Hexp, Z.pow_add_r by lia.
    rewrite <- (Z.mul_assoc count), <- (Z.pow_add_r 2 (- e2)) by lia.
    rewrite Z.mul_assoc.
    apply Z.div_mul_cancel_r; [lia|].
    assert (0 < 2 ^ (- e2 + n)) by (apply Z.pow_pos_nonneg; lia). lia. }
  rewrite <- (threshold_arith total count (2 ^ E) (q / 2 ^ n) V);
    try done; try lia.
  split; intros Hlt.
  - apply Z.mul_lt_mono_pos_r in Hlt; lia.
  - apply Z.mul_lt_mono_pos_r; lia.
Qed.

End FloatCompare.

(** ** utils/notion.py: the payload *)

Section NotionPayload.
Import Notion Payload.

Lemma build_toggles_acc (answers acc : list pyval) :
  Forall (fun a => exists t, toggle_for a t) answers ->
  exists ts, build_toggles acc answers = inr (acc ++ ts)
             /\ Forall2 toggle_for answers ts.
Proof.
  revert acc. induction answers as [|a answers IH]; intros acc Hall.
  - exists []. split; [simpl; by rewrite app_nil_r | constructor].
  - inversion Hall as [|? ? [t Ht] Hrest]; subst.
    destruct (IH (acc ++ [t]) Hrest) as (ts & Hts & Hrel).
    exists (t :: ts). split.
    + simpl. unfold toggle_for in Ht. rewrite Ht. simpl.
      rewrite Hts. by rewrite <- app_assoc.
    + by constructor.
Qed.

Lemma structured_option_fields (ans : pyval) :
  Spec.structured_option ans = true ->
  exists d o b e,
    ans = PDict d
    /\ dict_get (lit "option") d = Some (PStr o)
    /\ dict_get (lit "isCorrect") d = Some (PBool b)
    /\ dict_get (lit "explanation") d = Some (PStr e).
Proof.
  destruct ans as [| | | | |l|d]; simpl; try discriminate.
  destruct (dict_get (lit "option") d) as [[| | | |o| |]|] eqn:Ho; try discriminate.
  destruct (dict_get (lit "isCorrect") d) as [[|b| | | | |]|] eqn:Hc; try discriminate.
  destruct (dict_get (lit "explanation") d) as [[| | | |e| |]|] eqn:He; try discriminate.
  intros _. by exists d, o, b, e.
Qed.

(** One toggle, read back: the option text on the toggle, and under it
    the verdict in its colour followed by the explanation. *)
Lemma build_toggle_structured (ans : pyval) :
  Spec.structured_option ans = true ->
  exists t b,
    toggle_for ans t
    /\ at_key "isCorrect" ans = Some (PBool b)
    /\ block_type t = Some (PStr (lit "toggle"))
    /\ toggle_text t = at_key "option" ans
    /\ toggle_label t
       = Some (PStr (if b then lit "Correcto: " else lit "Incorrecto: "))
    /\ toggle_color t = Some (PStr (if b then lit "green" else lit "red"))
    /\ toggle_explanation t = at_key "explanation" ans.
Proof.
  intros Hs. destruct (structured_option_fields ans Hs)
    as (d & o & b & e & -> & Ho & Hc & He).
  eexists. exists b. split.
  - unfold toggle_for, build_toggle, getitem. rewrite Hc, Ho, He. simpl.
    reflexivity.
  - unfold at_key. rewrite Ho, Hc, He.
    destruct b; repeat split; reflexivity.
Qed.

(** C10.  For a structured question record, [build_notion_payload]
    returns a payload whose numbered item holds exactly one toggle block
    per answer entry, in the order of the list; each toggle shows the
    entry's option text, and its paragraph reads "Correcto: " in green
    when [isCorrect] is true and "Incorrecto: " in red when it is false,
    followed by the entry's explanation. *)
Theorem build_notion_payload_toggles (question_data question : pyval)
    (answers : list pyval) :
  getitem question_data (lit "answer") = inr (PList answers) ->
  getitem question_data (lit "question") = inr question ->
  Forall (fun a => Spec.structured_option a = true) answers ->
  exists payload toggles,
    build_notion_payload question_data = inr payload
    /\ question_of payload = Some question
    /\ toggles_of payload = Some toggles
    /\ length toggles = length answers
    /\ forall (i : nat) (ans : pyval),
         answers !! i = Some ans ->
         exists t b,
           toggles !! i = Some t
           /\ at_key "isCorrect" ans = Some (PBool b)
           /\ block_type t = Some (PStr (lit "toggle"))
           /\ toggle_text t = at_key "option" ans
           /\ toggle_label t
              = Some (PStr (if b then lit "Correcto: " else lit "Incorrecto: "))
           /\ toggle_color t = Some (PStr (if b then lit "green" else lit "red"))
           /\ toggle_explanation t = at_key "explanation" ans.
Proof.
  intros Hans Hq Hall.
  destruct (build_toggles_acc answers []) as (ts & Hts & Hrel).
  { eapply Forall_impl; [exact Hall|]. intros a Ha.
    destruct (build_toggle_structured a Ha) as (t & _ & Ht & _). by exists t. }
  simpl in Hts.
  eexists. exists ts. split.
  { unfold build_notion_payload. rewrite Hans. simpl. rewrite Hts. simpl.
    rewrite Hq. simpl. reflexivity. }
  split; [reflexivity|]. split; [reflexivity|].
  split; [symmetry; eapply Forall2_length; exact Hrel|].
  intros i ans Hi.
  destruct (Forall2_lookup_l _ _ _ _ _ Hrel Hi) as (t & Hti & Hfor).
  assert (Hs : Spec.structured_option ans = true).
  { rewrite Forall_forall in Hall. apply Hall.
    eapply list_elem_of_lookup_2. exact Hi. }
  destruct (build_toggle_structured ans Hs) as (t' & b & Hfor' & Hrest).
  unfold toggle_for in Hfor, Hfor'. rewrite Hfor in Hfor'.
  injection Hfor' as <-. exists t, b. by split.
Qed.

(** The witness: the record the stand-in parser knows. *)
Lemma build_notion_payload_toggles_witness :
  exists payload toggles,
    build_notion_payload StandIn.record_value = inr payload
    /\ question_of payload = Some (PStr (lit "Q"))
    /\ toggles_of payload = Some toggles
    /\ length toggles = 1%nat
    /\ forall (i : nat) (ans : pyval),
         [ PDict [ (lit "option", PStr (lit "A"));
                   (lit "isCorrect", PBool true);
                   (lit "explanation", PStr (lit "E")) ] ] !! i = Some ans ->
         exists t b,
           toggles !! i = Some t
           /\ at_key "isCorrect" ans = Some (PBool b)
           /\ block_type t = Some (PStr (lit "toggle"))
           /\ toggle_text t = at_key "option" ans
           /\ toggle_label t
              = Some (PStr (if b then lit "Correcto: " else lit "Incorrecto: "))
           /\ toggle_color t = Some (PStr (if b then lit "green" else lit "red"))
           /\ toggle_explanation t = at_key "explanation" ans.
Proof.
  apply (build_notion_payload_toggles StandIn.record_value (PStr (lit "Q"))
           [ PDict [ (lit "option", PStr (lit "A"));
                     (lit "isCorrect", PBool true);
                     (lit "explanation", PStr (lit "E")) ] ]).
  - reflexivity.
  - reflexivity.
  - repeat constructor.
Defined.

End NotionPayload.

(** ** utils/ocr.py: joining the fragments *)

Section Fragments.
Import Ocr.

Lemma join_fragments_eq (results : list str) :
  join_fragments results
  = join Spec.newline
      (List.map strip (List.filter (fun r => negb (Spec.blank r)) results)).
Proof. reflexivity. Qed.

Lemma filter_all_blank (results : list str) :
  Forall (fun r => Spec.blank r = true) results ->
  List.filter (fun r => negb (Spec.blank r)) results = [].
Proof.
  induction 1 as [|r rs Hr _ IH]; [reflexivity|].
  simpl. rewrite Hr. simpl. exact IH.
Qed.

(** Fragments that carry no outer whitespace are joined as they are. *)
Lemma join_fragments_stripped (results : list str) :
  Forall (fun r => strip r = r) results ->
  join_fragments results = Spec.join_non_blank results.
Proof.
  intros Hall. rewrite join_fragments_eq. unfold Spec.join_non_blank. f_equal.
  induction Hall as [|r rs Hr _ IH]; [reflexivity|].
  simpl. destruct (negb (Spec.blank r)); simpl; [rewrite Hr|]; by rewrite IH.
Qed.

Context `{Collaborators}.

Lemma image_to_text_result (path : pyval) (langs : list str) (gpu : bool)
    (w w1 w2 : World) (r : Reader) (prep : ndarray Z) :
  init_reader langs gpu w = (inr r, w1) ->
  preprocess_image path 1600 w1 = (inr prep, w2) ->
  fst (image_to_text path langs gpu w)
  = match readtext r prep with
    | inr results => inr (join_fragments results)
    | inl e => inl e
    end.
Proof.
  intros Hinit Hprep. unfold image_to_text, bind.
  rewrite Hinit, Hprep. simpl. unfold lift.
  by destruct (readtext r prep).
Qed.

(** C5, as the code has it.  When the engine is available and the image
    is preprocessed, [image_to_text] returns the non-blank fragments, each
    stripped of the whitespace around it, joined with newlines; blank
    fragments leave no trace, and a run of fragments that is empty, or
    all blank, gives the empty string and no exception. *)
Theorem image_to_text_joins_stripped (path : pyval) (langs : list str)
    (gpu : bool) (w w1 w2 : World) (r : Reader) (prep : ndarray Z)
    (results : list str) :
  init_reader langs gpu w = (inr r, w1) ->
  preprocess_image path 1600 w1 = (inr prep, w2) ->
  readtext r prep = inr results ->
  fst (image_to_text path langs gpu w)
  = inr (join Spec.newline
           (List.map strip (List.filter (fun f => negb (Spec.blank f)) results)))
  /\ (Forall (fun f => Spec.blank f = true) results ->
      fst (image_to_text path langs gpu w) = inr [])
  /\ (results = [] -> fst (image_to_text path langs gpu w) = inr []).
Proof.
  intros Hinit Hprep Hread.
  pose proof (image_to_text_result path langs gpu w w1 w2 r prep Hinit Hprep) as E.
  rewrite Hread in E. rewrite E, join_fragments_eq.
  split; [reflexivity|]. split.
  - intros Hall. by rewrite (filter_all_blank results Hall).
  - by intros ->.
Qed.

End Fragments.

(** The engine reads one fragment with a space on either side: the text
    returned is not that fragment. *)
Lemma image_to_text_strips_fragment :
  let env := StandIn.collaborators (inr [lit " a "]) (inr []) [] (inr PNone) in
  fst (@Ocr.image_to_text env (PStr (lit "images/Prueba.png")) [lit "en"] true
         (StandIn.world0 false))
  <> inr (Spec.join_non_blank [lit " a "]).
Proof. vm_compute. discriminate. Qed.

Lemma image_to_text_joins_stripped_witness :
  let env := StandIn.collaborators (inr [lit " a "; lit "  "; lit "b"]) (inr []) []
               (inr PNone) in
  fst (@Ocr.image_to_text env (PStr (lit "images/Prueba.png")) [lit "en"] true
         (StandIn.world0 false))
  = inr (lit "a" ++ Spec.newline ++ lit "b").
Proof.
  intros env.
  refine (proj1 (@image_to_text_joins_stripped env (PStr (lit "images/Prueba.png"))
                   [lit "en"] true (StandIn.world0 false) _ _ _ _
                   [lit " a "; lit "  "; lit "b"] _ _ _)).
  - vm_compute. reflexivity.
  - vm_compute. reflexivity.
  - reflexivity.
Defined.

(** ** utils/ocr.py: polarity *)

Section Polarity.
Import Ocr.

Lemma total_range (gray : ndarray Z) :
  Spec.samples_8bit gray -> 0 <= Spec.total gray <= 255 * Spec.count gray.
Proof.
  unfold Spec.samples_8bit, Spec.total, Spec.count. generalize (buf gray) as l.
  induction 1 as [|x l Hx _ IH]; [simpl; lia|].
  cbn [fold_right length]. rewrite Nat2Z.inj_succ. lia.
Qed.

(** The comparison the code makes, on doubles, decides whether the total
    is below a hundred times the count. *)
Lemma mean_lt_iff (gray : ndarray Z) :
  Spec.samples_8bit gray -> 0 < Spec.count gray < 2 ^ 45 ->
  mean_lt (np_mean gray) 100 = true
  <-> Spec.total gray < 100 * Spec.count gray.
Proof.
  intros H8 Hc. apply mean_below_100; [done | by apply total_range].
Qed.

(** The mean of an empty array is [nan], and nothing is inverted. *)
Lemma normalize_polarity_empty (r c : Z) :
  normalize_polarity (mk_ndarray r c []) = mk_ndarray r c [].
Proof. reflexivity. Qed.

Lemma lnot_8bit (x : Z) : 0 <= x <= 255 -> Z.land (Z.lnot x) 255 = 255 - x.
Proof.
  intros Hx. change 255 with (Z.ones 8) at 1. rewrite Z.land_ones by lia.
  unfold Z.lnot. symmetry. change (2 ^ 8) with 256.
  apply (Z.mod_unique (Z.pred (- x)) 256 (-1) (255 - x)); lia.
Qed.

Lemma bitwise_not_invert (gray : ndarray Z) :
  Spec.samples_8bit gray -> bitwise_not gray = Spec.invert gray.
Proof.
  unfold Spec.samples_8bit, bitwise_not, Spec.invert. intros Hall. f_equal.
  induction Hall as [|x l Hx _ IH]; [reflexivity|].
  simpl. by rewrite lnot_8bit, IH.
Qed.

Lemma invert_differs (gray : ndarray Z) :
  buf gray <> [] -> Spec.invert gray <> gray.
Proof.
  destruct gray as [r c b]. simpl. intros Hne Heq. unfold Spec.invert in Heq.
  simpl in Heq. injection Heq as Hb. destruct b as [|x b]; [done|].
  simpl in Hb. injection Hb as Hx _. lia.
Qed.

Lemma total_uniform (gray : ndarray Z) (v : Z) :
  Forall (fun x => x = v) (buf gray) -> Spec.total gray = v * Spec.count gray.
Proof.
  unfold Spec.total, Spec.count. generalize (buf gray) as l.
  induction 1 as [|x l Hx _ IH]; simpl; [lia|].
  rewrite IH, Hx. lia.
Qed.

(** C4.  On a non-empty 8-bit grayscale buffer (of fewer than [2^45]
    samples, far more than memory holds) the polarity step inverts the
    intensities exactly when their mean, the total over the count, is
    strictly below 100, and otherwise leaves the buffer as it is; an
    all-white buffer is not inverted and an all-black one is (it comes out
    all white). *)
Theorem normalize_polarity_threshold (gray : ndarray Z) :
  buf gray <> [] ->
  Spec.samples_8bit gray ->
  Spec.count gray < 2 ^ 45 ->
  (normalize_polarity gray = Spec.invert gray
   <-> Spec.total gray < 100 * Spec.count gray)
  /\ (normalize_polarity gray = gray
      <-> 100 * Spec.count gray <= Spec.total gray)
  /\ (Forall (fun x => x = 255) (buf gray) -> normalize_polarity gray = gray)
  /\ (Forall (fun x => x = 0) (buf gray) ->
      normalize_polarity gray
      = mk_ndarray (rows gray) (cols gray) (List.map (fun _ => 255) (buf gray))).
Proof.
  intros Hne H8 Hsize.
  pose proof (bitwise_not_invert gray H8) as Hinv.
  pose proof (invert_differs gray Hne) as Hdiff.
  assert (Hcount : 0 < Spec.count gray).
  { unfold Spec.count. destruct (buf gray); [done | simpl; lia]. }
  pose proof (mean_lt_iff gray H8 ltac:(lia)) as Hm.
  unfold normalize_polarity.
  destruct (mean_lt (np_mean gray) 100) eqn:E.
  - assert (Hlt : Spec.total gray < 100 * Spec.count gray) by (by apply Hm).
    rewrite Hinv. repeat split.
    + done.
    + intros Heq. by destruct Hdiff.
    + lia.
    + intros Hw. rewrite (total_uniform gray 255 Hw) in Hlt. lia.
    + unfold Spec.invert. generalize (buf gray) as l. intros l Hb. f_equal.
      induction Hb as [|x l Hx _ IH]; [reflexivity | simpl; by rewrite Hx, IH].
  - assert (Hge : ~ Spec.total gray < 100 * Spec.count gray).
    { intros Hlt. assert (false = true); [|done]. by apply Hm. }
    repeat split.
    + intros Heq. symmetry in Heq. by destruct Hdiff.
    + intros Hlt. by destruct Hge.
    + lia.
    + intros Hb. rewrite (total_uniform gray 0 Hb) in Hge. lia.
Qed.

(** A dark 2-by-2 buffer (mean 50) is inverted; the threshold itself is
    not: a buffer of mean exactly 100 stays. *)
Lemma normalize_polarity_threshold_witness :
  normalize_polarity (mk_ndarray 2 2 [0; 0; 100; 100])
  = mk_ndarray 2 2 [255; 255; 155; 155]
  /\ normalize_polarity (mk_ndarray 1 2 [0; 200]) = mk_ndarray 1 2 [0; 200].
Proof.
  split.
  - apply (proj1 (normalize_polarity_threshold (mk_ndarray 2 2 [0; 0; 100; 100])
                    ltac:(discriminate)
                    ltac:(repeat constructor; simpl; lia)
                    ltac:(reflexivity))).
    vm_compute. reflexivity.
  - apply (proj1 (proj2 (normalize_polarity_threshold (mk_ndarray 1 2 [0; 200])
                    ltac:(discriminate)
                    ltac:(repeat constructor; simpl; lia)
                    ltac:(reflexivity)))).
    vm_compute. discriminate.
Defined.

End Polarity.

(** ** utils/ocr.py: the upscale step *)

Section Upscale.
Import Ocr.
Context `{Collaborators}.

(** No downscaling: an image at least as wide as the target is kept. *)
Lemma upscale_keeps_wide (img : ndarray bgr) (resize_width : Z) :
  resize_width <= cols img -> upscale img resize_width = inr img.
Proof.
  intros Hw. unfold upscale.
  destruct (cols img <? resize_width) eqn:E; [|reflexivity].
  apply Z.ltb_lt in E. lia.
Qed.

(** C3, at a width the code gets wrong.  An image 97 samples wide and 100
    high, upscaled to the default target of 1600: [1600 / 97] rounds to a
    double just below the quotient, [97 * scale] to 1599.9999999999998, and
    [int] truncates it, so the result is 1599 wide (and 1649 high). *)
Theorem upscale_truncates_width (samples : list bgr) :
  upscale (mk_ndarray 100 97 samples) 1600
  = inr (resize (mk_ndarray 100 97 samples) (1599, 1649))
  /\ Float64.truediv_int 1600 97
     = inr (S754_finite false 4642886213784016 (-48))
  /\ Spec.scaled_width 97 1600 = inr 1599.
Proof. repeat split; vm_compute; reflexivity. Qed.

(** With the default target every narrower width comes out 1600 or 1599
    wide; 85 of the 1599 widths come out 1599. *)
Lemma upscale_default_widths (w : Z) :
  1 <= w < 1600 ->
  Spec.scaled_width w 1600 = inr 1600 \/ Spec.scaled_width w 1600 = inr 1599.
Proof.
  intros Hw.
  assert (Hall : forallb Spec.width_1599_or_1600 (seqZ 1 1599) = true)
    by (vm_compute; reflexivity).
  rewrite forallb_forall in Hall.
  specialize (Hall w). unfold Spec.width_1599_or_1600 in Hall.
  destruct (Spec.scaled_width w 1600) as [e|W].
  - assert (false = true); [|done]. apply Hall.
    apply list_elem_of_In, elem_of_seqZ. lia.
  - assert (HW : (W =? 1600) || (W =? 1599) = true).
    { apply Hall. apply list_elem_of_In, elem_of_seqZ. lia. }
    apply orb_true_iff in HW as [HW|HW]; apply Z.eqb_eq in HW; subst; auto.
Qed.

Lemma upscale_default_short_widths :
  length (List.filter
            (fun w => match Spec.scaled_width w 1600 with
                      | inr W => W =? 1599
                      | inl _ => false
                      end)
            (seqZ 1 1599)) = 85%nat.
Proof. vm_compute. reflexivity. Qed.

End Upscale.

(** ** utils/ocr.py: the cached engine *)

Section ReaderCache.
Import Ocr Obs.
Context `{Collaborators}.

(** [preprocess_image], step by step. *)
Lemma preprocess_image_run (path : pyval) (resize_width : Z) (w : World) :
  preprocess_image path resize_width w
  = match path with
    | PStr p =>
        match fs w !! p with
        | None => (inl (FileNotFoundError (lit "Image not found: " ++ p)), w)
        | Some img =>
            match upscale img resize_width with
            | inl e => (inl e, w)
            | inr img' => (inr (snd (stages img')), after_writes img' w)
            end
        end
    | _ => (inl (TypeError "Can't convert object to 'str' for 'filename'"), w)
    end.
Proof.
  unfold preprocess_image, bind, imread.
  destruct path; try reflexivity.
  destruct (fs w !! s) as [img|]; [|reflexivity].
  unfold lift. destruct (upscale img resize_width) as [e|img']; reflexivity.
Qed.

Lemma after_writes_trace (img : ndarray bgr) (w : World) :
  exists g b t ok1 ok2 ok3,
    trace (after_writes img w)
    = trace w ++ [ Imwrite (lit "outputs/preprocessed-gray.jpg") g ok1;
                   Imwrite (lit "outputs/preprocessed-blur.jpg") b ok2;
                   Imwrite (lit "outputs/preprocessed.jpg") t ok3 ]
    /\ stages img = (g, b, t)
    /\ _reader (after_writes img w) = _reader w.
Proof.
  unfold after_writes. destruct (stages img) as [[g b] t].
  do 6 eexists. split; [|split; reflexivity].
  unfold imwrite. simpl. rewrite <- !app_assoc. reflexivity.
Qed.

(** Preprocessing leaves the cache alone and logs no engine event. *)
Lemma preprocess_image_cache (path : pyval) (resize_width : Z) (w : World) :
  let w' := snd (preprocess_image path resize_width w) in
  _reader w' = _reader w
  /\ reader_loads (trace w') = reader_loads (trace w)
  /\ readers_used (trace w') = readers_used (trace w).
Proof.
  rewrite preprocess_image_run.
  destruct path; try done.
  destruct (fs w !! s) as [img|]; [|done].
  destruct (upscale img resize_width) as [e|img']; [done|].
  cbn [snd]. destruct (after_writes_trace img' w)
    as (g & b & t & ok1 & ok2 & ok3 & Htr & _ & Hrd).
  rewrite Htr, Hrd. unfold reader_loads, readers_used.
  rewrite !omap_app. simpl. by rewrite !app_nil_r.
Qed.

Lemma init_reader_run (langs : list str) (gpu : bool) (w : World) :
  init_reader langs gpu w
  = match _reader w with
    | Some r => (inr r, w)
    | None =>
        match reader_load_error langs gpu with
        | Some e => (inl e, w)
        | None =>
            (inr (mk_Reader langs gpu),
             mk_World (fs w) (unwritable w) (Some (mk_Reader langs gpu))
                      (trace w ++ [ReaderLoaded langs gpu]))
        end
    end.
Proof.
  unfold init_reader. destruct (_reader w); [reflexivity|].
  unfold easyocr_Reader. destruct (reader_load_error langs gpu); reflexivity.
Qed.

Lemma init_reader_consistent (langs : list str) (gpu : bool) (w : World) :
  cache_consistent w ->
  let w' := snd (init_reader langs gpu w) in
  cache_consistent w'
  /\ (forall r, fst (init_reader langs gpu w) = inr r -> _reader w' = Some r)
  /\ (forall r, _reader w = Some r -> _reader w' = Some r).
Proof.
  intros Hc. pose proof Hc as [Hloads Hused]. rewrite init_reader_run.
  destruct (_reader w) as [r|] eqn:Hr.
  - cbn [fst snd]. split; [done|]. split.
    + intros r' Heq. rewrite Hr. congruence.
    + intros r' Heq. congruence.
  - simpl in Hloads.
    assert (Hnone : readers_used (trace w) = []).
    { destruct (readers_used (trace w)); [done|]. inversion Hused; discriminate. }
    destruct (reader_load_error langs gpu) as [e|]; cbn [fst snd].
    + split; [done|]. split; [discriminate | congruence].
    + split; [split|split].
      * cbn [trace _reader]. unfold reader_loads in *.
        rewrite omap_app, Hloads. reflexivity.
      * cbn [trace _reader]. unfold readers_used in *.
        rewrite omap_app, Hnone. constructor.
      * intros r [= <-]. reflexivity.
      * discriminate.
Qed.

(** [image_to_text], step by step. *)
Lemma image_to_text_run (path : pyval) (langs : list str) (gpu : bool) (w : World) :
  image_to_text path langs gpu w
  = match init_reader langs gpu w with
    | (inl e, w1) => (inl e, w1)
    | (inr r, w1) =>
        match preprocess_image path 1600 w1 with
        | (inl e, w2) => (inl e, w2)
        | (inr prep, w2) =>
            (match readtext r prep with
             | inr results => inr (join_fragments results)
             | inl e => inl e
             end,
             mk_World (fs w2) (unwritable w2) (_reader w2)
                      (trace w2 ++ [Readtext r prep]))
        end
    end.
Proof.
  unfold image_to_text, bind.
  destruct (init_reader langs gpu w) as [[e|r] w1]; [reflexivity|].
  destruct (preprocess_image path 1600 w1) as [[e|prep] w2]; [reflexivity|].
  unfold log, lift. simpl. by destruct (readtext r prep).
Qed.

(** One call keeps the cache and the log in agreement, never replaces an
    engine the cache already holds, and fills an empty cache with an
    engine of its own configuration when the engine loads. *)
Lemma image_to_text_consistent (c : call) (w : World) :
  cache_consistent w ->
  let w' := snd (image_to_text (call_path c) (call_langs c) (call_gpu c) w) in
  cache_consistent w'
  /\ (forall r, _reader w = Some r -> _reader w' = Some r)
  /\ (_reader w = None -> reader_load_error (call_langs c) (call_gpu c) = None ->
      _reader w' = Some (mk_Reader (call_langs c) (call_gpu c))).
Proof.
  intros Hc.
  destruct (init_reader_consistent (call_langs c) (call_gpu c) w Hc)
    as (Hc1 & Hret & Hkeep).
  pose proof (init_reader_run (call_langs c) (call_gpu c) w) as Hrun.
  rewrite image_to_text_run.
  destruct (init_reader (call_langs c) (call_gpu c) w) as [[e|r] w1] eqn:Hinit;
    cbn [fst snd] in Hc1, Hret, Hkeep.
  { cbn [snd]. split; [done|]. split; [done|].
    intros Hnone Hok. rewrite Hnone, Hok in Hrun. discriminate. }
  specialize (Hret r eq_refl).
  assert (Hfirst : _reader w = None ->
                   reader_load_error (call_langs c) (call_gpu c) = None ->
                   r = mk_Reader (call_langs c) (call_gpu c)).
  { intros Hnone Hok. rewrite Hnone, Hok in Hrun. by injection Hrun as <- _. }
  destruct (preprocess_image_cache (call_path c) 1600 w1) as (Hrd & Hl & Hu).
  destruct Hc1 as [Hc1l Hc1u].
  destruct (preprocess_image (call_path c) 1600 w1) as [[e|prep] w2] eqn:Hprep;
    cbn [snd] in Hrd, Hl, Hu |- *.
  - split; [|split].
    + unfold cache_consistent. by rewrite Hrd, Hl, Hu.
    + intros r' Hr'. rewrite Hrd. by apply Hkeep.
    + intros Hnone Hok. by rewrite Hrd, Hret, (Hfirst Hnone Hok).
  - split; [|split].
    + unfold cache_consistent. cbn [trace _reader].
      unfold reader_loads, readers_used in *. rewrite !omap_app. simpl.
      rewrite app_nil_r, Hrd, Hl, Hu. split; [done|].
      apply Forall_app. split; [done | by repeat constructor].
    + intros r' Hr'. cbn [_reader]. rewrite Hrd. by apply Hkeep.
    + intros Hnone Hok. cbn [_reader]. by rewrite Hrd, Hret, (Hfirst Hnone Hok).
Qed.

Lemma extract_all_snd (c : call) (rest : list call) (w : World) :
  snd (extract_all (c :: rest) w)
  = snd (extract_all rest
           (snd (image_to_text (call_path c) (call_langs c) (call_gpu c) w))).
Proof. simpl. by destruct (extract_all rest _). Qed.

(** A process keeps the cache and the log in agreement, and an engine
    once cached stays. *)
Lemma extract_all_consistent (calls : list call) (w : World) :
  cache_consistent w ->
  cache_consistent (snd (extract_all calls w))
  /\ (forall r, _reader w = Some r -> _reader (snd (extract_all calls w)) = Some r).
Proof.
  revert w. induction calls as [|c rest IH]; intros w Hc; [by split|].
  rewrite extract_all_snd.
  destruct (image_to_text_consistent c w Hc) as (Hc' & Hkeep & _).
  destruct (IH _ Hc') as (Hc'' & Hkeep'').
  split; [done|]. intros r Hr. apply Hkeep'', Hkeep, Hr.
Qed.

Lemma fresh_consistent (w : World) : fresh w -> cache_consistent w.
Proof. intros [Hr Ht]. unfold cache_consistent. rewrite Hr, Ht. by split. Qed.

(** C2, as the code has it.  In a process that starts with an empty cache
    and makes any sequence of calls, the engine is built at most once
    altogether; every recognition runs on that one engine; and when the
    first call's engine loads, it is the first call's configuration the
    engine is built with, whatever later calls request. *)
Theorem reader_built_once (calls : list call) (w : World) :
  fresh w ->
  let w' := snd (extract_all calls w) in
  (length (reader_loads (trace w')) <= 1)%nat
  /\ Forall (fun r => reader_loads (trace w') = [r]) (readers_used (trace w'))
  /\ (forall c rest,
        calls = c :: rest ->
        reader_load_error (call_langs c) (call_gpu c) = None ->
        reader_loads (trace w') = [mk_Reader (call_langs c) (call_gpu c)]).
Proof.
  intros Hfresh w'.
  pose proof (fresh_consistent w Hfresh) as Hc.
  destruct (extract_all_consistent calls w Hc) as ([Hl Hu] & _).
  fold w' in Hl, Hu. split; [|split].
  - rewrite Hl. destruct (_reader w'); simpl; lia.
  - eapply Forall_impl; [exact Hu|]. intros r Hr. simpl in Hr. by rewrite Hl, Hr.
  - intros c rest -> Hok. subst w'. rewrite extract_all_snd in Hl |- *.
    destruct (image_to_text_consistent c w Hc) as (Hc' & _ & Hfirst).
    destruct Hfresh as [Hnone _]. specialize (Hfirst Hnone Hok).
    destruct (extract_all_consistent rest _ Hc') as (_ & Hkeep).
    by rewrite Hl, (Hkeep _ Hfirst).
Qed.

End ReaderCache.

(** Two calls on one image, the first for English and the second for
    Spanish: the second is recognised by the engine built for English. *)
Lemma second_call_gets_first_engine :
  let env := StandIn.collaborators (inr [lit "a"]) (inr []) [] (inr PNone) in
  let calls := [ Obs.mk_call (PStr (lit "images/Prueba.png")) [lit "en"] true;
                 Obs.mk_call (PStr (lit "images/Prueba.png")) [lit "es"] true ] in
  Obs.fresh (StandIn.world0 false)
  /\ ~ Obs.all_use_requested (fst (@Obs.extract_all env calls (StandIn.world0 false))).
Proof.
  intros env calls. split; [by split|]. intros Hall.
  unfold Obs.all_use_requested in Hall.
  assert (Hsecond : exists ce,
            fst (@Obs.extract_all env calls (StandIn.world0 false)) !! 1%nat = Some ce
            /\ Obs.readers_used (snd ce) = [mk_Reader [lit "en"] true]
            /\ fst ce = Obs.mk_call (PStr (lit "images/Prueba.png")) [lit "es"] true).
  { eexists. split; [vm_compute; reflexivity|]. split; vm_compute; reflexivity. }
  destruct Hsecond as (ce & Hce & Hused & Hcall).
  pose proof (Forall_lookup_1 _ _ _ _ Hall Hce) as Hbad.
  unfold Obs.uses_requested in Hbad. rewrite Hused, Hcall in Hbad.
  inversion Hbad as [|? ? Heq _]. discriminate Heq.
Qed.

Lemma reader_built_once_witness :
  let env := StandIn.collaborators (inr [lit "a"]) (inr []) [] (inr PNone) in
  let calls := [ Obs.mk_call (PStr (lit "images/Prueba.png")) [lit "en"] true;
                 Obs.mk_call (PStr (lit "images/Prueba.png")) [lit "es"] true ] in
  let w' := snd (@Obs.extract_all env calls (StandIn.world0 false)) in
  (length (Obs.reader_loads (trace w')) <= 1)%nat
  /\ Forall (fun r => Obs.reader_loads (trace w') = [r]) (Obs.readers_used (trace w'))
  /\ (forall c rest,
        calls = c :: rest ->
        @reader_load_error env (Obs.call_langs c) (Obs.call_gpu c) = None ->
        Obs.reader_loads (trace w')
        = [mk_Reader (Obs.call_langs c) (Obs.call_gpu c)]).
Proof.
  intros env calls.
  apply (@reader_built_once env calls (StandIn.world0 false)).
  split; reflexivity.
Defined.

(** ** utils/ocr.py: preprocessing, its one failure and its debug writes *)

Section Preprocess.
Import Ocr Obs.
Context `{Collaborators}.




(** The binarized image does not depend on what can be written. *)
Lemma preprocess_image_value_any_scratch (path : pyval) (resize_width : Z)
    (w w' : World) :
  fs w = fs w' ->
  fst (preprocess_image path resize_width w)
  = fst (preprocess_image path resize_width w').
Proof.
  intros Hfs. rewrite !preprocess_image_run, Hfs.
  destruct path; try done. destruct (fs w' !! s); [|done].
  by destruct (upscale n resize_width).
Qed.

End Preprocess.



(** ** Dictionaries *)

Section Dicts.

Lemma str_eqb_eq (a b : str) : str_eqb a b = true <-> a = b.
Proof. unfold str_eqb. apply bool_decide_eq_true. Qed.

Lemma str_eqb_refl (a : str) : str_eqb a a = true.
Proof. by apply str_eqb_eq. Qed.

Lemma str_eqb_ne (a b : str) : a <> b -> str_eqb a b = false.
Proof. unfold str_eqb. intros. by apply bool_decide_eq_false. Qed.

Lemma dict_get_set_eq (k : str) (v : pyval) (d : dict) :
  dict_get k (dict_set k v d) = Some v.
Proof.
  induction d as [|[k' v'] d IH]; simpl.
  - by rewrite str_eqb_refl.
  - destruct (str_eqb k k') eqn:E; simpl; rewrite E; [done | exact IH].
Qed.

Lemma dict_get_set_ne (k k' : str) (v : pyval) (d : dict) :
  k <> k' -> dict_get k' (dict_set k v d) = dict_get k' d.
Proof.
  intros Hne. induction d as [|[k0 v0] d IH]; simpl.
  - rewrite str_eqb_ne; [done | congruence].
  - destruct (str_eqb k k0) eqn:E; simpl.
    + apply str_eqb_eq in E. subst k0. rewrite str_eqb_ne; [done | congruence].
    + by rewrite IH.
Qed.

Lemma dict_get_absent (k : str) (d : dict) :
  k ∉ List.map fst d -> dict_get k d = None.
Proof.
  induction d as [|[k' v'] d IH]; simpl; [done|].
  intros Hnot. rewrite not_elem_of_cons in Hnot. destruct Hnot as [Hne Hnot].
  rewrite str_eqb_ne by done. by apply IH.
Qed.

Lemma dict_set_keys (k : str) (v : pyval) (d : dict) :
  List.map fst (dict_set k v d)
  = if bool_decide (k ∈ List.map fst d) then List.map fst d
    else List.map fst d ++ [k].
Proof.
  induction d as [|[k' v'] d IH]; simpl; [done|].
  destruct (str_eqb k k') eqn:E; simpl.
  - apply str_eqb_eq in E. subst. rewrite bool_decide_eq_true_2; [done | left].
  - rewrite IH. assert (k <> k') by (intros ->; by rewrite str_eqb_refl in E).
    destruct (bool_decide (k ∈ List.map fst d)) eqn:Ed.
    + apply bool_decide_eq_true in Ed. rewrite bool_decide_eq_true_2; [done | by right].
    + apply bool_decide_eq_false in Ed.
      rewrite bool_decide_eq_false_2; [done|]. rewrite elem_of_cons. tauto.
Qed.

(** Keys stay distinct under assignment. *)
Lemma dict_set_NoDup (k : str) (v : pyval) (d : dict) :
  NoDup (List.map fst d) -> NoDup (List.map fst (dict_set k v d)).
Proof.
  intros Hd. rewrite dict_set_keys. case_bool_decide; [done|].
  apply NoDup_app. split; [done|]. split; [|apply NoDup_singleton].
  intros x Hx Hx'. apply list_elem_of_singleton in Hx'. by subst.
Qed.

(** [d.update(u)], read back. *)
Lemma dict_get_update (k : str) (d u : dict) :
  NoDup (List.map fst u) ->
  dict_get k (dict_update d u)
  = match dict_get k u with
    | Some v => Some v
    | None => dict_get k d
    end.
Proof.
  unfold dict_update. revert d. induction u as [|[k' v'] u IH]; intros d Hu; [done|].
  simpl in Hu. apply NoDup_cons in Hu as [Hnot Hu].
  simpl. rewrite (IH _ Hu). destruct (str_eqb k k') eqn:E.
  - apply str_eqb_eq in E. subst k'.
    rewrite (dict_get_absent k u Hnot). apply dict_get_set_eq.
  - destruct (dict_get k u); [done|]. apply dict_get_set_ne.
    intros ->. by rewrite str_eqb_refl in E.
Qed.

(** Writing a node's own state back changes no entry. *)
Lemma dict_get_update_self (k : str) (d : dict) :
  NoDup (List.map fst d) -> dict_get k (dict_update d d) = dict_get k d.
Proof. intros Hd. rewrite dict_get_update by done. by destruct (dict_get k d). Qed.

Lemma dict_update_NoDup (d u : dict) :
  NoDup (List.map fst d) -> NoDup (List.map fst (dict_update d u)).
Proof.
  unfold dict_update. revert d. induction u as [|[k v] u IH]; intros d Hd; [done|].
  simpl. apply IH. by apply dict_set_NoDup.
Qed.

(** A node that sets one entry and returns its state: the entry is there
    afterwards, and the others are as before. *)
Lemma dict_update_set (d : dict) (k : str) (v : pyval) :
  NoDup (List.map fst d) ->
  let d' := dict_update d (dict_set k v d) in
  dict_get k d' = Some v
  /\ NoDup (List.map fst d')
  /\ (forall k', k <> k' -> dict_get k' d' = dict_get k' d).
Proof.
  intros Hnd d'. subst d'. split; [|split].
  - rewrite dict_get_update by (by apply dict_set_NoDup).
    by rewrite dict_get_set_eq.
  - by apply dict_update_NoDup.
  - intros k' Hk. rewrite dict_get_update by (by apply dict_set_NoDup).
    rewrite dict_get_set_ne by done. by destruct (dict_get k' d).
Qed.

End Dicts.

(** ** aws_question_agent.py: the nodes and the graph *)

Section Pipeline.
Import Agent Obs.
Context `{Collaborators}.

Lemma logged_logged (a b : list event) (w : World) :
  logged b (logged a w) = logged (a ++ b) w.
Proof. unfold logged. simpl. by rewrite app_assoc. Qed.

Lemma log_run (e : event) (w : World) : log e w = (inr tt, logged [e] w).
Proof. reflexivity. Qed.

Lemma state_get_run (state : dict) (key : string) (w : World) :
  state_get state key w
  = (match dict_get (lit key) state with
     | Some v => inr v
     | None => inl (KeyError (PStr (lit key)))
     end, w).
Proof. unfold state_get, lift, getitem. by destruct (dict_get (lit key) state). Qed.

(** The compiled graph runs the three nodes in a row, writing what each
    returns back into the state, whatever the first node found. *)
Lemma invoke_graph_run (state : dict) (w : World) :
  invoke graph state w
  = (let* u1 := get_question_text state in
     let s1 := dict_update state u1 in
     let* u2 := convert_text_to_json s1 in
     let s2 := dict_update s1 u2 in
     let* u3 := upload_to_notion s2 in
     ret (dict_update s2 u3))%py w.
Proof. reflexivity. Qed.

Lemma get_question_text_run (state : dict) (path : pyval) (w : World) :
  dict_get (lit "file_path") state = Some path ->
  get_question_text state w
  = match Ocr.image_to_text path [lit "en"] true
            (logged [Print [PStr (lit "Running OCR...")]] w) with
    | (inl e, w1) => (inl e, w1)
    | (inr text, w1) =>
        if bool_decide (strip text = []) then
          (inr state, logged [Print [PStr (lit "No text extracted from image.")]] w1)
        else
          (inr (dict_set (lit "ocr_text") (PStr text) state),
           logged [ Print [PStr (lit "Question text extracted:")];
                    Print [PStr (take 500 text); PStr (lit "...\n")] ] w1)
    end.
Proof.
  intros Hpath. unfold get_question_text, bind, print.
  rewrite log_run.
  rewrite state_get_run, Hpath.
  destruct (Ocr.image_to_text path [lit "en"] true _) as [[e|text] w1]; [done|].
  case_bool_decide; [reflexivity|].
  unfold log, ret, logged. simpl. by rewrite <- app_assoc.
Qed.

Lemma convert_text_to_json_missing (state : dict) (w : World) :
  dict_get (lit "ocr_text") state = None ->
  convert_text_to_json state w
  = (inl (KeyError (PStr (lit "ocr_text"))),
     logged [Print [PStr (lit "Asking local LLM (Ollama) to answer...")]] w).
Proof.
  intros Hnone. unfold convert_text_to_json, bind, print.
  rewrite log_run.
  rewrite state_get_run. by rewrite Hnone.
Qed.

Lemma convert_text_to_json_run (state : dict) (ocr_text : pyval) (w : World) :
  dict_get (lit "ocr_text") state = Some ocr_text ->
  convert_text_to_json state w
  = let w1 := logged [ Print [PStr (lit "Asking local LLM (Ollama) to answer...")];
                       Called "answer_question_with_llm" ocr_text;
                       LlmInvoke (prompt_format ocr_text) ] w in
    match model_invoke (prompt_format ocr_text) with
    | inl e => (inl e, w1)
    | inr content =>
        match json_loads (strip content) with
        | inl e => (inl e, w1)
        | inr parsed =>
            (inr (dict_set (lit "question") parsed state),
             logged [Print [PStr (lit "Ollama Generate the question")]] w1)
        end
    end.
Proof.
  intros Hsome. unfold convert_text_to_json, bind, print.
  rewrite log_run.
  rewrite state_get_run, Hsome.
  unfold Llm.answer_question_with_llm, bind, log, lift, ret, logged. simpl.
  destruct (model_invoke (prompt_format ocr_text)) as [e|content]; simpl;
    [|destruct (json_loads (strip content)) as [e|parsed]; simpl];
    by rewrite <- ?app_assoc.
Qed.

Lemma upload_to_notion_missing (state : dict) (w : World) :
  dict_get (lit "question") state = None ->
  upload_to_notion state w
  = (inl (KeyError (PStr (lit "question"))),
     logged [Print [PStr (lit "Uploading to Notion...")]] w).
Proof.
  intros Hnone. unfold upload_to_notion, bind, print.
  rewrite log_run.
  rewrite state_get_run. by rewrite Hnone.
Qed.

Lemma upload_to_notion_run (state : dict) (question : pyval) (w : World) :
  dict_get (lit "question") state = Some question ->
  upload_to_notion state w
  = let w1 := logged [ Print [PStr (lit "Uploading to Notion...")];
                       Called "upload_question" question;
                       Print [question] ] w in
    match Notion.build_notion_payload question with
    | inl e => (inl e, w1)
    | inr payload =>
        let w2 := logged [NotionAppend NOTION_PARENT payload] w1 in
        match append_block_children NOTION_PARENT payload with
        | inl e => (inl e, w2)
        | inr _ => (inr state, w2)
        end
    end.
Proof.
  intros Hsome. unfold upload_to_notion, bind, print.
  rewrite log_run.
  rewrite state_get_run, Hsome.
  unfold Notion.upload_question, bind, print, log, lift, ret, logged. simpl.
  destruct (Notion.build_notion_payload question) as [e|payload]; simpl;
    [|destruct (append_block_children NOTION_PARENT payload); simpl];
    by rewrite <- ?app_assoc.
Qed.

(** What one call of [image_to_text] logs: engine and image events only. *)
Lemma image_to_text_events (path : pyval) (langs : list str) (gpu : bool) (w : World) :
  exists evs,
    trace (snd (Ocr.image_to_text path langs gpu w)) = trace w ++ evs
    /\ (forall fn, calls_of fn evs = [])
    /\ notion_appends evs = [].
Proof.
  rewrite image_to_text_run, init_reader_run.
  assert (Hpre : forall w1, exists evs,
            trace (snd (Ocr.preprocess_image path 1600 w1)) = trace w1 ++ evs
            /\ (forall fn, calls_of fn evs = []) /\ notion_appends evs = []).
  { intros w1. rewrite preprocess_image_run.
    destruct path; try (exists []; by rewrite app_nil_r).
    destruct (fs w1 !! s) as [img|]; [|exists []; by rewrite app_nil_r].
    destruct (Ocr.upscale img 1600) as [e|img']; [exists []; by rewrite app_nil_r|].
    destruct (after_writes_trace img' w1)
      as (g & b & t & ok1 & ok2 & ok3 & Htr & _ & _).
    eexists. split; [exact Htr|]. by split. }
  assert (Hrest : forall r w1 pre,
            trace w1 = trace w ++ pre ->
            (forall fn, calls_of fn pre = []) -> notion_appends pre = [] ->
            exists evs,
              trace (snd (match Ocr.preprocess_image path 1600 w1 with
                          | (inl e, w2) => (inl e, w2)
                          | (inr prep, w2) =>
                              (match readtext r prep with
                               | inr results => inr (Ocr.join_fragments results)
                               | inl e => inl e
                               end,
                               mk_World (fs w2) (unwritable w2) (_reader w2)
                                        (trace w2 ++ [Readtext r prep]))
                          end))
              = trace w ++ evs
              /\ (forall fn, calls_of fn evs = []) /\ notion_appends evs = []).
  { intros r w1 pre Hw1 Hpc Hpn. destruct (Hpre w1) as (evs & Htr & Hc & Hn).
    destruct (Ocr.preprocess_image path 1600 w1) as [[e|prep] w2]; cbn [snd] in *.
    - exists (pre ++ evs). rewrite Htr, Hw1, app_assoc. split; [done|].
      unfold calls_of, notion_appends in *. split; [intros fn|];
        rewrite omap_app; [rewrite Hpc, Hc | rewrite Hpn, Hn]; done.
    - exists (pre ++ evs ++ [Readtext r prep]). cbn [trace].
      rewrite Htr, Hw1, !app_assoc. split; [done|].
      unfold calls_of, notion_appends in *. split; [intros fn|];
        rewrite !omap_app; [rewrite Hpc, Hc | rewrite Hpn, Hn]; done. }
  destruct (_reader w) as [r|].
  - apply (Hrest r w []); [by rewrite app_nil_r | done | done].
  - destruct (reader_load_error langs gpu) as [e|].
    + exists []. by rewrite app_nil_r.
    + apply (Hrest _ _ [ReaderLoaded langs gpu]); done.
Qed.

Lemma events_since_app (w w' : World) (evs : list event) :
  trace w' = trace w ++ evs -> events_since w w' = evs.
Proof. intros Htr. unfold events_since. rewrite Htr. apply drop_app_length. Qed.

(** Reads the events of a run off the shape of its last world, given how
    the log grew up to the first node. *)
Ltac events_of_run Htr :=
  erewrite events_since_app;
  [|cbn [logged trace]; rewrite Htr; cbn [logged trace];
    rewrite <- ?app_assoc; reflexivity].

Lemma calls_of_app (fn : string) (a b : list event) :
  calls_of fn (a ++ b) = calls_of fn a ++ calls_of fn b.
Proof. apply omap_app. Qed.

Lemma notion_appends_app (a b : list event) :
  notion_appends (a ++ b) = notion_appends a ++ notion_appends b.
Proof. apply omap_app. Qed.

(** The first node when the image gives text: the text goes into the
    state, and the events so far are the OCR's own and three prints. *)
Lemma get_question_text_text (state : dict) (path : pyval) (w0 w1 : World)
    (text : str) :
  dict_get (lit "file_path") state = Some path ->
  Ocr.image_to_text path [lit "en"] true (logged [running_ocr] w0) = (inr text, w1) ->
  strip text <> [] ->
  exists w1' evs,
    get_question_text state w0
    = (inr (dict_set (lit "ocr_text") (PStr text) state), w1')
    /\ trace w1' = trace w0 ++ evs
    /\ (forall fn, calls_of fn evs = [])
    /\ notion_appends evs = [].
Proof.
  intros Hpath Himg Htext.
  rewrite (get_question_text_run state path w0 Hpath).
  fold running_ocr. rewrite Himg. rewrite bool_decide_eq_false_2 by done.
  destruct (image_to_text_events path [lit "en"] true (logged [running_ocr] w0))
    as (evs & Htr & Hc & Hn).
  rewrite Himg in Htr. cbn [snd] in Htr.
  eexists. eexists. split; [reflexivity|]. split; [|split].
  - cbn [logged trace]. rewrite Htr. cbn [logged trace].
    rewrite <- !app_assoc. reflexivity.
  - intros fn. rewrite !calls_of_app, Hc. reflexivity.
  - rewrite !notion_appends_app, Hn. reflexivity.
Qed.


(** C6, as the code has it.  When the image gives text and the Structurer
    raises, or its reply is one [json.loads] rejects, the run ends with that
    exception; the Structurer was called once, with the text, and the
    Publisher and the Notion API were not called. *)
Theorem structurer_failure_stops_run (state : dict) (path : pyval)
    (w0 w1 : World) (text : str) (e : exn) :
  NoDup (List.map fst state) ->
  dict_get (lit "file_path") state = Some path ->
  Ocr.image_to_text path [lit "en"] true (logged [running_ocr] w0) = (inr text, w1) ->
  strip text <> [] ->
  (model_invoke (prompt_format (PStr text)) = inl e
   \/ exists reply, model_invoke (prompt_format (PStr text)) = inr reply
                    /\ json_loads (strip reply) = inl e) ->
  let run := invoke graph state w0 in
  fst run = inl e
  /\ structurer_calls (events_since w0 (snd run)) = [PStr text]
  /\ publisher_calls (events_since w0 (snd run)) = []
  /\ notion_appends (events_since w0 (snd run)) = [].
Proof.
  intros Hnd Hpath Himg Htext Hfail run.
  destruct (get_question_text_text state path w0 w1 text Hpath Himg Htext)
    as (w1' & evs & Hn1 & Htr & Hc & Hn).
  destruct (dict_update_set state (lit "ocr_text") (PStr text) Hnd)
    as (Hs1 & Hnd1 & Hrest1).
  set (s1 := dict_update state (dict_set (lit "ocr_text") (PStr text) state)) in *.
  assert (Hrun : run
    = (inl e,
       logged [ Print [PStr (lit "Asking local LLM (Ollama) to answer...")];
                Called "answer_question_with_llm" (PStr text);
                LlmInvoke (prompt_format (PStr text)) ] w1')).
  { subst run. rewrite invoke_graph_run. unfold bind. rewrite Hn1.
    fold s1. rewrite (convert_text_to_json_run s1 (PStr text) w1' Hs1).
    cbv zeta. destruct Hfail as [Hllm | (reply & Hllm & Hjson)].
    - by rewrite Hllm.
    - by rewrite Hllm, Hjson. }
  rewrite Hrun. cbn [fst snd]. split; [done|].
  events_of_run Htr.
  unfold structurer_calls, publisher_calls.
  rewrite !calls_of_app, !Hc, notion_appends_app, Hn. by repeat split.
Qed.

(** C1, on the code.  When the image gives a blank text and the state has
    no [ocr_text] entry (as [input_state] has none), the first node
    returns, the graph goes on to [convert_text_to_json], and the run ends
    there with [KeyError('ocr_text')]: an exception, though neither the
    Structurer nor the Publisher was called. *)
Theorem blank_text_run_raises (state : dict) (path : pyval) (w0 w1 : World)
    (text : str) :
  NoDup (List.map fst state) ->
  dict_get (lit "file_path") state = Some path ->
  dict_get (lit "ocr_text") state = None ->
  Ocr.image_to_text path [lit "en"] true (logged [running_ocr] w0) = (inr text, w1) ->
  strip text = [] ->
  invoke graph state w0
  = (inl (KeyError (PStr (lit "ocr_text"))),
     logged [ Print [PStr (lit "No text extracted from image.")];
              Print [PStr (lit "Asking local LLM (Ollama) to answer...")] ] w1)
  /\ structurer_calls (events_since w0 (snd (invoke graph state w0))) = []
  /\ publisher_calls (events_since w0 (snd (invoke graph state w0))) = [].
Proof.
  intros Hnd Hpath Hnone Himg Hblank.
  assert (Hrun : invoke graph state w0
    = (inl (KeyError (PStr (lit "ocr_text"))),
       logged [ Print [PStr (lit "No text extracted from image.")];
                Print [PStr (lit "Asking local LLM (Ollama) to answer...")] ] w1)).
  { rewrite invoke_graph_run. unfold bind.
    rewrite (get_question_text_run state path w0 Hpath). fold running_ocr.
    rewrite Himg, bool_decide_eq_true_2 by done.
    rewrite convert_text_to_json_missing.
    - by rewrite logged_logged.
    - by rewrite dict_get_update_self. }
  rewrite Hrun. split; [done|]. cbn [snd].
  destruct (image_to_text_events path [lit "en"] true (logged [running_ocr] w0))
    as (evs & Htr & Hc & _).
  rewrite Himg in Htr. cbn [snd] in Htr.
  events_of_run Htr.
  unfold structurer_calls, publisher_calls.
  rewrite !calls_of_app, !Hc. by split.
Qed.

End Pipeline.

(** The repository's own run, [graph.invoke(input_state)], on an image
    the engine reads nothing from. *)
Lemma blank_text_run_raises_witness :
  let env := StandIn.collaborators (inr [lit "  "; lit ""]) (inr StandIn.record_text)
               StandIn.documents (inr PNone) in
  exists w,
    @Agent.invoke (@Agent.graph env) Agent.input_state (StandIn.world0 true)
    = (inl (KeyError (PStr (lit "ocr_text"))), w).
Proof.
  intros env. eexists.
  refine (proj1 (@blank_text_run_raises env Agent.input_state
                   (PStr (lit "images/Prueba.png")) (StandIn.world0 true) _ []
                   _ _ _ _ _)).
  - repeat constructor. set_solver.
  - reflexivity.
  - reflexivity.
  - vm_compute. reflexivity.
  - reflexivity.
Defined.

(** A state that already carries an [ocr_text] entry, and an image the
    engine reads nothing from: the stale entry is structured and
    published. *)
Lemma blank_text_stale_entry_published :
  let env := StandIn.collaborators (inr []) (inr StandIn.record_text)
               StandIn.documents (inr PNone) in
  let state := Agent.input_state ++ [(lit "ocr_text", PStr (lit "old question"))] in
  let run := @Agent.invoke (@Agent.graph env) state (StandIn.world0 true) in
  Obs.structurer_calls (trace (snd run)) = [PStr (lit "old question")]
  /\ Obs.publisher_calls (trace (snd run)) = [StandIn.record_value].
Proof. vm_compute. split; reflexivity. Qed.

(** The Structurer answers well-formed JSON that is no question record:
    the run does not stop at the structuring stage, and the Publisher is
    called with the value. *)
Lemma unstructured_reply_reaches_publisher :
  let env := StandIn.collaborators (inr [lit "What is S3?"]) (inr (lit "[]"))
               StandIn.documents (inr PNone) in
  let run := @Agent.invoke (@Agent.graph env) Agent.input_state (StandIn.world0 true) in
  @model_invoke env (@prompt_format env (PStr (lit "What is S3?"))) = inr (lit "[]")
  /\ @json_loads env (lit "[]") = inr (PList [])
  /\ Spec.structured_record (PList []) = false
  /\ Obs.publisher_calls (trace (snd run)) = [PList []]
  /\ fst run
     = inl (TypeError "list indices must be integers or slices, not str").
Proof. vm_compute. repeat split; reflexivity. Qed.

Lemma structurer_failure_stops_run_witness :
  let env := StandIn.collaborators (inr [lit "What is S3?"]) (inr (lit "not json"))
               StandIn.documents (inr PNone) in
  let run := @Agent.invoke (@Agent.graph env) Agent.input_state (StandIn.world0 true) in
  fst run = inl (JSONDecodeError (lit "not json"))
  /\ Obs.structurer_calls (Obs.events_since (StandIn.world0 true) (snd run))
     = [PStr (lit "What is S3?")]
  /\ Obs.publisher_calls (Obs.events_since (StandIn.world0 true) (snd run)) = []
  /\ Obs.notion_appends (Obs.events_since (StandIn.world0 true) (snd run)) = [].
Proof.
  intros env.
  refine (@structurer_failure_stops_run env Agent.input_state
            (PStr (lit "images/Prueba.png")) (StandIn.world0 true) _
            (lit "What is S3?") _ _ _ _ _ _).
  - repeat constructor. set_solver.
  - reflexivity.
  - vm_compute. reflexivity.
  - vm_compute. discriminate.
  - right. exists (lit "not json"). split; vm_compute; reflexivity.
Defined.


(** * Further properties of the code *)

(** ** Stripped text *)

Section Stripped.
Import Scratch.

Lemma lstrip_starts_clean (s : str) : starts_clean (lstrip s).
Proof.
  induction s as [|c s IH]; simpl; [done|].
  destruct (isspace c) eqn:E; [exact IH | exact E].
Qed.

Lemma lstrip_clean_id (s : str) : starts_clean s -> lstrip s = s.
Proof. destruct s as [|c s]; simpl; [done|]. by intros ->. Qed.

Lemma lstrip_suffix (s : str) : exists pre, s = pre ++ lstrip s.
Proof.
  induction s as [|c s [pre IH]]; simpl; [by exists []|].
  destruct (isspace c).
  - exists (c :: pre). simpl. by rewrite <- IH.
  - by exists [].
Qed.

Lemma rstrip_ends_clean (s : str) : starts_clean (rev (rstrip s)).
Proof. unfold rstrip. rewrite rev_involutive. apply lstrip_starts_clean. Qed.

Lemma rstrip_clean_id (s : str) : starts_clean (rev s) -> rstrip s = s.
Proof. intros Hc. unfold rstrip. by rewrite lstrip_clean_id, rev_involutive. Qed.

Lemma ends_clean_suffix (pre u : str) :
  starts_clean (rev (pre ++ u)) -> starts_clean (rev u).
Proof.
  rewrite rev_app_distr. destruct (rev u) as [|c t]; [done|]. simpl. done.
Qed.

(** [s.strip()] has no outer whitespace. *)
Lemma strip_clean (s : str) : clean (strip s).
Proof.
  unfold strip, clean. split; [apply lstrip_starts_clean|].
  destruct (lstrip_suffix (rstrip s)) as [pre Hpre].
  apply (ends_clean_suffix pre). rewrite <- Hpre. apply rstrip_ends_clean.
Qed.

(** Text without outer whitespace is left as it is. *)
Lemma strip_clean_id (s : str) : clean s -> strip s = s.
Proof.
  intros [Hs He]. unfold strip. by rewrite rstrip_clean_id, lstrip_clean_id.
Qed.

Lemma join_nil_iff (sep : str) (parts : list str) :
  Forall (fun p => p <> []) parts -> join sep parts = [] -> parts = [].
Proof.
  destruct 1 as [|p ps Hp Hps]; [done|]. simpl.
  destruct ps; [done|]. intros Heq. by destruct p.
Qed.

Lemma join_starts_clean (sep : str) (parts : list str) :
  Forall (fun p => p <> [] /\ starts_clean p) parts ->
  starts_clean (join sep parts).
Proof.
  destruct 1 as [|p ps [Hne Hp] Hps]; [done|]. simpl.
  destruct ps; [done|]. destruct p; [done|]. exact Hp.
Qed.

Lemma ends_clean_app (a b : str) :
  b <> [] -> starts_clean (rev b) -> starts_clean (rev (a ++ b)).
Proof.
  intros Hb Hc. rewrite rev_app_distr.
  destruct (rev b) as [|c t] eqn:E; [|done].
  apply (f_equal (@rev N)) in E. rewrite rev_involutive in E. done.
Qed.

Lemma join_ends_clean (sep : str) (parts : list str) :
  Forall (fun p => p <> [] /\ starts_clean (rev p)) parts ->
  starts_clean (rev (join sep parts)).
Proof.
  induction 1 as [|p ps [Hne Hp] Hps IH]; [done|].
  destruct ps as [|p' ps']; [done|].
  change (join sep (p :: p' :: ps')) with (p ++ sep ++ join sep (p' :: ps')).
  rewrite app_assoc. apply ends_clean_app; [|exact IH].
  intros Hnil. apply join_nil_iff in Hnil; [done|].
  eapply Forall_impl; [exact Hps|]. by intros x [Hx _].
Qed.

Lemma join_fragments_parts_clean (results : list str) :
  Forall (fun p => p <> [] /\ clean p)
         (List.map strip (List.filter (fun r => negb (Spec.blank r)) results)).
Proof.
  induction results as [|r rs IH]; [constructor|].
  simpl. destruct (Spec.blank r) eqn:E; simpl; [exact IH|].
  constructor; [|exact IH]. split; [|apply strip_clean].
  unfold Spec.blank in E. by apply bool_decide_eq_false in E.
Qed.

(** X1.  The text [image_to_text] makes of the fragments is empty exactly when
    every fragment is blank. *)
Theorem join_fragments_empty_iff (results : list str) :
  Ocr.join_fragments results = []
  <-> Forall (fun r => Spec.blank r = true) results.
Proof.
  rewrite join_fragments_eq. split.
  - intros Hnil. apply join_nil_iff in Hnil.
    + apply Forall_forall. intros r Hr.
      destruct (Spec.blank r) eqn:E; [done|].
      assert (Hin : strip r ∈ List.map strip
                      (List.filter (fun r => negb (Spec.blank r)) results)).
      { apply list_elem_of_In, in_map, filter_In. split.
        - by apply list_elem_of_In.
        - by rewrite E. }
      rewrite Hnil in Hin. by apply not_elem_of_nil in Hin.
    + eapply Forall_impl; [apply join_fragments_parts_clean|]. by intros x [Hx _].
  - intros Hall. by rewrite (filter_all_blank results Hall).
Qed.

Context `{Collaborators}.

(** X2.  Whatever text [image_to_text] returns has no whitespace at either
    end: stripping it again changes nothing, so it is blank only when it
    is empty. *)
Theorem image_to_text_clean (path : pyval) (langs : list str) (gpu : bool)
    (w : World) (text : str) :
  fst (Ocr.image_to_text path langs gpu w) = inr text ->
  clean text /\ strip text = text /\ (strip text = [] <-> text = []).
Proof.
  intros Hres.
  assert (Hclean : clean text).
  { rewrite image_to_text_run in Hres.
    destruct (Ocr.init_reader langs gpu w) as [[e|r] w1]; [done|].
    destruct (Ocr.preprocess_image path 1600 w1) as [[e|prep] w2]; [done|].
    cbn [fst] in Hres. destruct (readtext r prep) as [e|results]; [done|].
    injection Hres as <-. rewrite join_fragments_eq.
    pose proof (join_fragments_parts_clean results) as Hparts.
    split.
    - apply join_starts_clean. eapply Forall_impl; [exact Hparts|].
      by intros x (Hx & Hs & _).
    - apply join_ends_clean. eapply Forall_impl; [exact Hparts|].
      by intros x (Hx & _ & He). }
  split; [done|]. rewrite (strip_clean_id text Hclean). by split.
Qed.

(** X3.  The reply [answer_question_with_llm] returns is the model's, stripped:
    it has no whitespace at either end. *)
Theorem answer_question_with_llm_clean (question_text : pyval) (w : World)
    (reply : str) :
  fst (Llm.answer_question_with_llm question_text w) = inr reply ->
  (exists content, model_invoke (prompt_format question_text) = inr content
                   /\ reply = strip content)
  /\ strip reply = reply.
Proof.
  unfold Llm.answer_question_with_llm, bind, log, lift, Run.ret. simpl.
  destruct (model_invoke (prompt_format question_text)) as [e|content]; [done|].
  simpl. intros [= <-]. split; [by exists content|].
  apply strip_clean_id, strip_clean.
Qed.

End Stripped.

Lemma image_to_text_clean_witness :
  let env := StandIn.collaborators (inr [lit " a "; lit "  "; lit "b "]) (inr []) []
               (inr PNone) in
  strip (lit "a" ++ Spec.newline ++ lit "b") = lit "a" ++ Spec.newline ++ lit "b".
Proof.
  intros env.
  refine (proj1 (proj2 (@image_to_text_clean env (PStr (lit "images/Prueba.png"))
                          [lit "en"] true (StandIn.world0 false) _ _))).
  vm_compute. reflexivity.
Defined.

Lemma answer_question_with_llm_clean_witness :
  let env := StandIn.collaborators (inr []) (inr (lit "  42 ")) [] (inr PNone) in
  strip (lit "42") = lit "42".
Proof.
  intros env.
  refine (proj2 (@answer_question_with_llm_clean env (PStr (lit "q"))
                   (StandIn.world0 false) _ _)).
  vm_compute. reflexivity.
Defined.

(** ** utils/ocr.py: files and cache *)

Section OcrFiles.
Import Ocr Obs Scratch.
Context `{Collaborators}.

Lemma paths_distinct : NoDup paths.
Proof. apply (bool_decide_unpack _). vm_compute. exact I. Qed.

Lemma imwrite_fs (path : str) (img : ndarray Z) (w : World) :
  fs (snd (imwrite path img w))
  = (if unwritable w path then fs w else <[path := jpeg_view img]> (fs w))
  /\ unwritable (snd (imwrite path img w)) = unwritable w
  /\ _reader (snd (imwrite path img w)) = _reader w.
Proof. unfold imwrite. cbn [snd fs unwritable _reader]. by destruct (unwritable w path). Qed.

Lemma after_writes_fs (img : ndarray bgr) (w : World) :
  fs (after_writes img w)
  = (if unwritable w final_path then id
     else <[final_path := jpeg_view (snd (stages img))]>)
      ((if unwritable w blur_path then id
        else <[blur_path := jpeg_view (snd (fst (stages img)))]>)
         ((if unwritable w gray_path then id
           else <[gray_path := jpeg_view (fst (fst (stages img)))]>)
            (fs w)))
  /\ unwritable (after_writes img w) = unwritable w.
Proof.
  unfold after_writes. destruct (stages img) as [[g b] t]. cbn [fst snd].
  set (w1 := snd (imwrite (lit "outputs/preprocessed-gray.jpg") g w)).
  set (w2 := snd (imwrite (lit "outputs/preprocessed-blur.jpg") b w1)).
  destruct (imwrite_fs (lit "outputs/preprocessed-gray.jpg") g w) as (F1 & U1 & _).
  destruct (imwrite_fs (lit "outputs/preprocessed-blur.jpg") b w1) as (F2 & U2 & _).
  destruct (imwrite_fs (lit "outputs/preprocessed.jpg") t w2) as (F3 & U3 & _).
  fold w1 in F1, U1. fold w2 in F2, U2.
  rewrite F3, U3, F2, U2, F1, U1. unfold final_path, blur_path, gray_path.
  split; [|done].
  by destruct (unwritable w (lit "outputs/preprocessed.jpg")),
              (unwritable w (lit "outputs/preprocessed-blur.jpg")),
              (unwritable w (lit "outputs/preprocessed-gray.jpg")).
Qed.

Lemma after_writes_frame (img : ndarray bgr) (w : World) (q : str) :
  q ∉ paths -> fs (after_writes img w) !! q = fs w !! q.
Proof.
  intros Hq. destruct (after_writes_fs img w) as [-> _].
  unfold paths in Hq. rewrite !not_elem_of_cons in Hq.
  destruct Hq as (Hg & Hb & Ht & _).
  destruct (unwritable w final_path), (unwritable w blur_path),
           (unwritable w gray_path); cbn [id];
    rewrite ?lookup_insert_ne by done; reflexivity.
Qed.

Lemma preprocess_image_keeps_file (path : pyval) (resize_width : Z) (w : World)
    (q : str) :
  q ∉ paths ->
  fs (snd (preprocess_image path resize_width w)) !! q = fs w !! q.
Proof.
  intros Hq. rewrite preprocess_image_run. destruct path; try done.
  destruct (fs w !! s); [|done].
  destruct (upscale n resize_width); [done|].
  cbn [snd]. by apply after_writes_frame.
Qed.

(** X4.  [preprocess_image] changes no file but its three debug images, and
    neither the cache nor what can be written. *)
Theorem preprocess_image_frame (path : pyval) (resize_width : Z) (w : World)
    (q : str) :
  q ∉ paths ->
  let w' := snd (preprocess_image path resize_width w) in
  fs w' !! q = fs w !! q
  /\ _reader w' = _reader w
  /\ unwritable w' = unwritable w.
Proof.
  intros Hq. destruct (preprocess_image_cache path resize_width w) as (Hr & _ & _).
  cbv zeta. split; [|split]; [| exact Hr |].
  - by apply preprocess_image_keeps_file.
  - rewrite preprocess_image_run. destruct path; try done.
    destruct (fs w !! s); [|done].
    destruct (upscale n resize_width) as [e|img']; [done|].
    cbn [snd]. by destruct (after_writes_fs img' w).
Qed.

(** X5.  With the scratch paths writable, each stage of a successful
    [preprocess_image] can be read back from its file; the last file holds
    the image returned. *)
Theorem preprocess_image_debug_files (p : str) (resize_width : Z) (w w' : World)
    (th : ndarray Z) :
  Forall (fun q => unwritable w q = false) paths ->
  preprocess_image (PStr p) resize_width w = (inr th, w') ->
  fs w' !! final_path = Some (jpeg_view th)
  /\ exists img img',
       fs w !! p = Some img /\ upscale img resize_width = inr img'
       /\ th = snd (stages img')
       /\ fs w' !! gray_path = Some (jpeg_view (fst (fst (stages img'))))
       /\ fs w' !! blur_path = Some (jpeg_view (snd (fst (stages img')))).
Proof.
  intros Hw Hrun. rewrite preprocess_image_run in Hrun.
  destruct (fs w !! p) as [img|]; [|done].
  destruct (upscale img resize_width) as [e|img'] eqn:Hup; [done|].
  injection Hrun as <- <-.
  destruct (after_writes_fs img' w) as [Hfs _].
  unfold paths in Hw. rewrite !Forall_cons in Hw. destruct Hw as (Hg & Hb & Ht & _).
  rewrite Hg, Hb, Ht in Hfs. rewrite Hfs.
  pose proof paths_distinct as Hnd. unfold paths in Hnd.
  rewrite !NoDup_cons, !not_elem_of_cons in Hnd.
  destruct Hnd as ((Hgb & Hgt & _) & (Hbt & _) & _).
  split; [by rewrite lookup_insert_eq|].
  exists img, img'. split; [done|]. split; [done|]. split; [done|]. split.
  - rewrite !lookup_insert_ne by done. by rewrite lookup_insert_eq.
  - rewrite lookup_insert_ne by done. by rewrite lookup_insert_eq.
Qed.



(** X7.  A missing image is found out after the engine has been loaded: the
    call fails with [FileNotFoundError], and the cache holds the engine. *)
Theorem image_to_text_missing_file (p : str) (langs : list str) (gpu : bool)
    (w : World) :
  _reader w = None ->
  reader_load_error langs gpu = None ->
  fs w !! p = None ->
  image_to_text (PStr p) langs gpu w
  = (inl (Spec.ImageNotFound p),
     mk_World (fs w) (unwritable w) (Some (mk_Reader langs gpu))
              (trace w ++ [ReaderLoaded langs gpu])).
Proof.
  intros Hnone Hok Hfs.
  rewrite image_to_text_run, init_reader_run, Hnone, Hok, preprocess_image_run.
  cbn [fs]. by rewrite Hfs.
Qed.

Lemma image_to_text_load_failure (path : pyval) (langs : list str) (gpu : bool)
    (w : World) (e : exn) :
  _reader w = None ->
  reader_load_error langs gpu = Some e ->
  image_to_text path langs gpu w = (inl e, w).
Proof.
  intros Hnone Herr. by rewrite image_to_text_run, init_reader_run, Hnone, Herr.
Qed.

(** X8.  The engine is that of the first call whose engine loads: calls whose
    load failed before it leave nothing behind. *)
Theorem engine_of_first_success (failed rest : list call) (c : call) (w : World) :
  fresh w ->
  Forall (fun c' => reader_load_error (call_langs c') (call_gpu c') <> None) failed ->
  reader_load_error (call_langs c) (call_gpu c) = None ->
  let w' := snd (extract_all (failed ++ c :: rest) w) in
  reader_loads (trace w') = [mk_Reader (call_langs c) (call_gpu c)]
  /\ _reader w' = Some (mk_Reader (call_langs c) (call_gpu c)).
Proof.
  intros Hfresh Hfailed Hok.
  pose proof (fresh_consistent w Hfresh) as Hc. destruct Hfresh as [Hnone _].
  revert w Hc Hnone. induction Hfailed as [|c' failed Hc' _ IH]; intros w Hc Hnone.
  - cbn [app]. cbv zeta. rewrite extract_all_snd.
    destruct (image_to_text_consistent c w Hc) as (Hc1 & _ & Hfirst).
    specialize (Hfirst Hnone Hok).
    destruct (extract_all_consistent rest _ Hc1) as ([Hl _] & Hkeep).
    rewrite Hl, (Hkeep _ Hfirst). by split.
  - cbn [app]. cbv zeta. rewrite extract_all_snd.
    destruct (reader_load_error (call_langs c') (call_gpu c')) as [e|] eqn:Herr; [|done].
    rewrite (image_to_text_load_failure _ _ _ w e Hnone Herr). cbn [snd].
    by apply IH.
Qed.

End OcrFiles.

Lemma preprocess_image_frame_witness :
  let env := StandIn.collaborators (inr []) (inr []) [] (inr PNone) in
  let w := StandIn.world0 false in
  fs (snd (@Ocr.preprocess_image env (PStr (lit "images/Prueba.png")) 1600 w))
    !! lit "images/Prueba.png"
  = Some (StandIn.flat_image 1 1600 (255, 255, 255)).
Proof.
  intros env w.
  refine (proj1 (@preprocess_image_frame env (PStr (lit "images/Prueba.png")) 1600 w
                   (lit "images/Prueba.png") _)).
  unfold Scratch.paths. rewrite !not_elem_of_cons.
  repeat split; try discriminate. apply not_elem_of_nil.
Defined.

Lemma preprocess_image_debug_files_witness :
  let env := StandIn.collaborators (inr []) (inr []) [] (inr PNone) in
  let run := @Ocr.preprocess_image env (PStr (lit "images/Prueba.png")) 1600
               (StandIn.world0 false) in
  exists th, fst run = inr th
             /\ fs (snd run) !! Scratch.final_path = Some (@jpeg_view env th).
Proof.
  intros env run. eexists. split; [vm_compute; reflexivity|].
  refine (proj1 (@preprocess_image_debug_files env (lit "images/Prueba.png") 1600
                   (StandIn.world0 false) (snd run) _ _ _)).
  - repeat constructor.
  - vm_compute. reflexivity.
Defined.


Lemma image_to_text_missing_file_witness :
  let env := StandIn.collaborators (inr []) (inr []) [] (inr PNone) in
  fst (@Ocr.image_to_text env (PStr (lit "images/Example.png")) [lit "en"] true
         (StandIn.world0 false))
  = inl (Spec.ImageNotFound (lit "images/Example.png")).
Proof.
  intros env.
  rewrite (@image_to_text_missing_file env (lit "images/Example.png") [lit "en"] true
             (StandIn.world0 false) eq_refl eq_refl eq_refl).
  reflexivity.
Defined.

Lemma engine_of_first_success_witness :
  let env := StandIn2.english_only (inr []) in
  let p := PStr (lit "images/Prueba.png") in
  let calls := [ Obs.mk_call p [lit "es"] true; Obs.mk_call p [lit "en"] false;
                 Obs.mk_call p [lit "es"] true ] in
  _reader (snd (@Obs.extract_all env calls (StandIn.world0 false)))
  = Some (mk_Reader [lit "en"] false).
Proof.
  intros env p calls.
  refine (proj2 (@engine_of_first_success env [Obs.mk_call p [lit "es"] true]
                   [Obs.mk_call p [lit "es"] true]
                   (Obs.mk_call p [lit "en"] false) (StandIn.world0 false) _ _ _)).
  - by split.
  - constructor; [discriminate | constructor].
  - reflexivity.
Defined.

(** ** utils/ocr.py: what the polarity step leaves *)

Section Brightness.
Import Ocr.

Lemma invert_total (gray : ndarray Z) :
  Spec.total (Spec.invert gray) = 255 * Spec.count gray - Spec.total gray.
Proof.
  unfold Spec.total, Spec.count, Spec.invert. cbn [buf].
  induction (buf gray) as [|x l IH]; [done|].
  cbn [List.map fold_right length]. rewrite IH, Nat2Z.inj_succ. lia.
Qed.

Lemma invert_8bit (gray : ndarray Z) :
  Spec.samples_8bit gray -> Spec.samples_8bit (Spec.invert gray).
Proof.
  unfold Spec.samples_8bit, Spec.invert. cbn [buf].
  induction 1 as [|x l Hx _ IH]; constructor; [lia | exact IH].
Qed.

Lemma invert_count (gray : ndarray Z) : Spec.count (Spec.invert gray) = Spec.count gray.
Proof. unfold Spec.count, Spec.invert. cbn [buf]. by rewrite length_map. Qed.

(** X9.  After the polarity step the buffer is a bright one: it is still
    8-bit, of the same size, its mean is 100 or more, and the step applied
    again changes nothing. *)
Theorem normalize_polarity_bright (gray : ndarray Z) :
  buf gray <> [] ->
  Spec.samples_8bit gray ->
  Spec.count gray < 2 ^ 45 ->
  let out := normalize_polarity gray in
  Spec.samples_8bit out
  /\ Spec.count out = Spec.count gray
  /\ 100 * Spec.count out <= Spec.total out
  /\ normalize_polarity out = out.
Proof.
  intros Hne H8 Hsize.
  assert (Hcount : 0 < Spec.count gray).
  { unfold Spec.count. destruct (buf gray); [done | simpl; lia]. }
  pose proof (mean_lt_iff gray H8 ltac:(lia)) as Hm.
  pose proof (total_range gray H8) as Hrange.
  assert (Hkey : forall g, Spec.samples_8bit g -> 0 < Spec.count g < 2 ^ 45 ->
                           100 * Spec.count g <= Spec.total g ->
                           normalize_polarity g = g).
  { intros g Hg8 Hgc Hge. unfold normalize_polarity.
    destruct (mean_lt (np_mean g) 100) eqn:E; [|done].
    apply (mean_lt_iff g Hg8 Hgc) in E. lia. }
  cbv zeta. destruct (mean_lt (np_mean gray) 100) eqn:E.
  - assert (Hn : normalize_polarity gray = Spec.invert gray).
    { unfold normalize_polarity. rewrite E. by apply bitwise_not_invert. }
    assert (Hlt : Spec.total gray < 100 * Spec.count gray) by (by apply Hm).
    rewrite Hn.
    pose proof (invert_8bit gray H8) as Hi8.
    pose proof (invert_count gray) as Hic.
    pose proof (invert_total gray) as Hit.
    split; [done|]. split; [done|]. split; [lia|].
    apply Hkey; [done | lia | lia].
  - assert (Hn : normalize_polarity gray = gray).
    { unfold normalize_polarity. by rewrite E. }
    assert (Hge : 100 * Spec.count gray <= Spec.total gray).
    { destruct (Z.le_gt_cases (100 * Spec.count gray) (Spec.total gray)) as [|Hlt];
        [done|]. assert (false = true); [|done]. apply Hm. lia. }
    rewrite Hn. split; [done|]. split; [done|]. split; [done|]. by apply Hkey.
Qed.

End Brightness.

Lemma normalize_polarity_bright_witness :
  let out := Ocr.normalize_polarity (mk_ndarray 2 2 [0; 0; 100; 100]) in
  Spec.samples_8bit out
  /\ Spec.count out = 4
  /\ 100 * Spec.count out <= Spec.total out
  /\ Ocr.normalize_polarity out = out.
Proof.
  apply (normalize_polarity_bright (mk_ndarray 2 2 [0; 0; 100; 100])).
  - discriminate.
  - repeat constructor; simpl; lia.
  - reflexivity.
Defined.

(** ** utils/ocr.py: the size after the upscale step *)

Section UpscaleShape.
Import Ocr Float64.
Context `{Collaborators}.

(** X10.  At the default target, an image narrower than 1600 comes out of the
    upscale step resized to a width of 1600 or 1599, never less and never
    more, whatever its height. *)
Theorem upscale_default_off_by_one (img : ndarray bgr) :
  1 <= cols img < 1600 ->
  0 < rows img < 2 ^ 53 ->
  exists W H',
    upscale img 1600 = inr (resize img (W, H'))
    /\ (W = 1600 \/ W = 1599)
    /\ cols (resize img (W, H')) = W.
Proof.
  intros Hw Hh.
  pose proof (upscale_default_widths (cols img) Hw) as Hwidth.
  unfold Spec.scaled_width, upscale in Hwidth. cbn [cols rows] in Hwidth.
  unfold upscale.
  destruct (Z.ltb_spec (cols img) 1600) as [_|Hge]; [|lia].
  assert (H53 : 1600 < 2 ^ 53) by (vm_compute; reflexivity).
  destruct (truediv_int_range 1600 (cols img)) as (scale & Hdiv & Hscale);
    [lia | lia |].
  rewrite Hdiv in *. cbn [and_then] in *.
  destruct (int_mul (cols img) scale) as [e|W] eqn:HW.
  { cbn [and_then] in Hwidth. by destruct Hwidth. }
  cbn [and_then] in *.
  destruct (int_mul_returns (rows img) scale Hh Hscale) as (H' & HH).
  rewrite HH. cbn [and_then].
  destruct (int_mul 1 scale) as [e|H1]; cbn [and_then] in Hwidth.
  { by destruct Hwidth. }
  cbn [resize cols fst] in Hwidth.
  exists W, H'. split; [done|]. split; [|done].
  destruct Hwidth as [[= ->]|[= ->]]; [by left | by right].
Qed.

End UpscaleShape.

Lemma upscale_default_off_by_one_witness :
  let env := StandIn.collaborators (inr []) (inr []) [] (inr PNone) in
  exists W H',
    @Ocr.upscale env (mk_ndarray 100 97 []) 1600
    = inr (@Ocr.resize env (mk_ndarray 100 97 []) (W, H'))
    /\ (W = 1600 \/ W = 1599)
    /\ cols (@Ocr.resize env (mk_ndarray 100 97 []) (W, H')) = W.
Proof.
  intros env.
  apply (@upscale_default_off_by_one env (mk_ndarray 100 97 [])); simpl; lia.
Defined.

(** ** utils/notion.py: what is accepted and what is sent *)

Section NotionShape.
Import Notion Payload Shape Obs.

Lemma has_key_fields (k : string) (d : dict) :
  has_key k d = true <-> exists v, dict_get (lit k) d = Some v.
Proof.
  unfold has_key. destruct (dict_get (lit k) d) as [v|].
  - split; [by exists v | done].
  - split; [done | by intros [v Hv]].
Qed.

(** The loop body succeeds exactly on answer entries. *)
Lemma build_toggle_ok_iff (ans : pyval) :
  (exists t, build_toggle ans = inr t) <-> answer_entry ans = true.
Proof.
  unfold build_toggle, answer_entry, getitem, has_key.
  destruct ans as [| | | | | |d]; try (split; [by intros [t Ht] | done]).
  destruct (dict_get (lit "isCorrect") d) as [c|]; cbn [and_then andb];
    [|split; [by intros [t Ht] | done]].
  destruct (dict_get (lit "option") d) as [o|]; cbn [and_then andb];
    [|split; [by intros [t Ht] | done]].
  destruct (dict_get (lit "explanation") d) as [x|]; cbn [and_then andb];
    [|split; [by intros [t Ht] | done]].
  split; [done | intros _; by eexists].
Qed.

Lemma build_toggles_ok_iff (items acc : list pyval) :
  (exists ts, build_toggles acc items = inr ts) <-> forallb answer_entry items = true.
Proof.
  revert acc. induction items as [|a items IH]; intros acc; simpl.
  - split; [done | intros _; by eexists].
  - rewrite andb_true_iff, <- build_toggle_ok_iff.
    destruct (build_toggle a) as [e|t]; cbn [and_then].
    + split; [by intros [ts Hts] | by intros [[t Ht] _]].
    + rewrite (IH (acc ++ [t])). split; [intros Hf; split; [by exists t | done] | tauto].
Qed.

(** X11.  [build_notion_payload] returns a payload exactly for a dict with a
    ["question"] and an ["answer"] that can be iterated and whose items
    are all dicts with the keys ["isCorrect"], ["option"] and
    ["explanation"]; on any other value it raises. *)
Theorem build_notion_payload_ok_iff (question_data : pyval) :
  (exists payload, build_notion_payload question_data = inr payload)
  <-> publishable question_data = true.
Proof.
  unfold build_notion_payload, publishable, getitem.
  destruct question_data as [| | | | | |d]; try (split; [by intros [t Ht] | done]).
  destruct (dict_get (lit "answer") d) as [answer|]; cbn [and_then];
    [|split; [by intros [t Ht] | done]].
  destruct (iterate answer) as [e|items]; cbn [and_then];
    [split; [by intros [t Ht] | done]|].
  rewrite andb_true_iff, <- (build_toggles_ok_iff items []).
  destruct (build_toggles [] items) as [e|toggles]; cbn [and_then].
  - split; [by intros [t Ht] | by intros [[t Ht] _]].
  - unfold has_key. destruct (dict_get (lit "question") d) as [q|]; cbn [and_then].
    + split; [intros _; split; [by eexists | done] | intros _; by eexists].
    + split; [by intros [t Ht] | by intros [_ ?]].
Qed.

(** X12.  The verdict follows the truth value of [isCorrect], whatever its type,
    and label and colour always agree; option and explanation are passed
    on as they are. *)
Theorem build_toggle_truthiness (ans : pyval) :
  answer_entry ans = true ->
  exists t flag,
    build_toggle ans = inr t
    /\ at_key "isCorrect" ans = Some flag
    /\ toggle_label t
       = Some (PStr (if truthy flag then lit "Correcto: " else lit "Incorrecto: "))
    /\ toggle_color t = Some (PStr (if truthy flag then lit "green" else lit "red"))
    /\ toggle_text t = at_key "option" ans
    /\ toggle_explanation t = at_key "explanation" ans.
Proof.
  unfold answer_entry. destruct ans as [| | | | | |d]; try done.
  rewrite !andb_true_iff, !has_key_fields.
  intros [[[c Hc] [o Ho]] [x Hx]].
  eexists. exists c. split.
  - unfold build_toggle, getitem. rewrite Hc, Ho, Hx. cbn [and_then]. reflexivity.
  - unfold at_key. rewrite Hc, Ho, Hx. destruct (truthy c); repeat split; reflexivity.
Qed.


End NotionShape.

(** An entry whose [isCorrect] is the string "false" is labelled correct,
    in green. *)
Lemma build_toggle_truthiness_witness :
  exists t,
    Notion.build_toggle StandIn2.string_flag_entry = inr t
    /\ Payload.toggle_label t = Some (PStr (lit "Correcto: "))
    /\ Payload.toggle_color t = Some (PStr (lit "green")).
Proof.
  destruct (build_toggle_truthiness StandIn2.string_flag_entry eq_refl)
    as (t & flag & Ht & Hflag & Hlabel & Hcolor & _).
  injection Hflag as <-. by exists t.
Defined.


(** ** aws_question_agent.py: every run *)

(** The events of a run, read off the shape of its last world, given
    how the log grew up to some point of it. *)
Ltac run_events Htr :=
  erewrite events_since_app;
  [|cbn [Obs.logged trace]; rewrite ?Htr; cbn [Obs.logged trace];
    rewrite <- ?app_assoc; reflexivity].

Ltac count_calls Hc Hn :=
  unfold Obs.structurer_calls, Obs.publisher_calls;
  rewrite ?calls_of_app, ?notion_appends_app, ?Hc, ?Hn; cbn;
  first [reflexivity | lia].

Section EveryRun.
Import Agent Obs.
Context `{Collaborators}.

Lemma get_question_text_missing (state : dict) (w : World) :
  dict_get (lit "file_path") state = None ->
  get_question_text state w
  = (inl (KeyError (PStr (lit "file_path"))), logged [running_ocr] w).
Proof.
  intros Hnone. unfold get_question_text, bind, Run.print.
  rewrite log_run, state_get_run. by rewrite Hnone.
Qed.

(** X14.  A state without [file_path] ends the run at once with
    [KeyError('file_path')]: the engine is not loaded and no file is
    touched. *)
Theorem run_without_file_path (state : dict) (w0 : World) :
  dict_get (lit "file_path") state = None ->
  invoke graph state w0
  = (inl (KeyError (PStr (lit "file_path"))), logged [running_ocr] w0).
Proof.
  intros Hnone. rewrite invoke_graph_run. unfold bind.
  by rewrite (get_question_text_missing state w0 Hnone).
Qed.

(** X15.  An exception of the OCR stage (a missing image, an engine that does
    not load or read) ends the run with that exception, before the
    Structurer or the Publisher is called. *)
Theorem ocr_failure_stops_run (state : dict) (path : pyval) (w0 w1 : World)
    (e : exn) :
  dict_get (lit "file_path") state = Some path ->
  Ocr.image_to_text path [lit "en"] true (logged [running_ocr] w0) = (inl e, w1) ->
  invoke graph state w0 = (inl e, w1)
  /\ structurer_calls (events_since w0 w1) = []
  /\ publisher_calls (events_since w0 w1) = []
  /\ notion_appends (events_since w0 w1) = [].
Proof.
  intros Hpath Himg.
  destruct (image_to_text_events path [lit "en"] true (logged [running_ocr] w0))
    as (evs & Htr & Hc & Hn).
  rewrite Himg in Htr. cbn [snd] in Htr.
  split.
  - rewrite invoke_graph_run. unfold bind.
    rewrite (get_question_text_run state path w0 Hpath). fold running_ocr.
    by rewrite Himg.
  - run_events Htr. unfold structurer_calls, publisher_calls.
    rewrite !calls_of_app, notion_appends_app, !Hc, Hn. by repeat split.
Qed.

(** X16.  In every run, whatever the state and the collaborators do: the
    Structurer is called at most once, the Publisher at most once and only
    after the Structurer, and the Notion API at most once and only inside
    the Publisher. *)
Theorem run_calls_bounded (state : dict) (w0 : World) :
  let evs := events_since w0 (snd (invoke graph state w0)) in
  (length (structurer_calls evs) <= 1)%nat
  /\ (length (publisher_calls evs) <= length (structurer_calls evs))%nat
  /\ (length (notion_appends evs) <= length (publisher_calls evs))%nat.
Proof.
  cbv zeta.
  destruct (dict_get (lit "file_path") state) as [path|] eqn:Hpath.
  2: { rewrite invoke_graph_run; unfold bind; rewrite (get_question_text_missing state w0 Hpath). cbn [snd].
       run_events I. cbn. lia. }
  rewrite invoke_graph_run. unfold bind.
  rewrite (get_question_text_run state path w0 Hpath). fold running_ocr.
  destruct (image_to_text_events path [lit "en"] true (logged [running_ocr] w0))
    as (evs & Htr & Hc & Hn).
  destruct (Ocr.image_to_text path [lit "en"] true (logged [running_ocr] w0))
    as [[e|text] w1]; cbn [snd] in Htr.
  { cbn [snd]. run_events Htr. count_calls Hc Hn. }
  assert (Hrest : forall (s1 : dict) (pre : list event) (w : World),
    trace w = trace w0 ++ pre ->
    (forall fn, calls_of fn pre = []) -> notion_appends pre = [] ->
    let run := match convert_text_to_json s1 w with
               | (inr u2, w2) =>
                   match upload_to_notion (dict_update s1 u2) w2 with
                   | (inr u3, w3) => (inr (dict_update (dict_update s1 u2) u3), w3)
                   | (inl e, w3) => (inl e, w3)
                   end
               | (inl e, w2) => (inl e, w2)
               end in
    (length (structurer_calls (events_since w0 (snd run))) <= 1)%nat
    /\ (length (publisher_calls (events_since w0 (snd run)))
        <= length (structurer_calls (events_since w0 (snd run))))%nat
    /\ (length (notion_appends (events_since w0 (snd run)))
        <= length (publisher_calls (events_since w0 (snd run))))%nat).
  { clear evs Htr Hc Hn. intros s1 pre w Hw Hc Hn. cbv zeta.
    destruct (dict_get (lit "ocr_text") s1) as [ocr|] eqn:Hocr.
    2: { rewrite (convert_text_to_json_missing s1 w Hocr). cbn [snd].
         run_events Hw. count_calls Hc Hn. }
    rewrite (convert_text_to_json_run s1 ocr w Hocr). cbv zeta.
    destruct (model_invoke (prompt_format ocr)) as [e|content].
    { cbn [snd]. run_events Hw. count_calls Hc Hn. }
    destruct (json_loads (strip content)) as [e|parsed].
    { cbn [snd]. run_events Hw. count_calls Hc Hn. }
    set (s2 := dict_update s1 (dict_set (lit "question") parsed s1)).
    destruct (dict_get (lit "question") s2) as [q|] eqn:Hq.
    2: { rewrite (upload_to_notion_missing s2 _ Hq). cbn [snd].
         run_events Hw. count_calls Hc Hn. }
    rewrite (upload_to_notion_run s2 q _ Hq). cbv zeta.
    destruct (Notion.build_notion_payload q) as [e|payload].
    { cbn [snd]. run_events Hw. count_calls Hc Hn. }
    destruct (append_block_children NOTION_PARENT payload);
      cbn [snd]; run_events Hw; count_calls Hc Hn. }
  case_bool_decide.
  - apply (Hrest _ ([running_ocr] ++ evs
                    ++ [Print [PStr (lit "No text extracted from image.")]])).
    + cbn [logged trace]. rewrite Htr. cbn [logged trace].
      by rewrite <- !app_assoc.
    + intros fn. by rewrite !calls_of_app, Hc.
    + by rewrite !notion_appends_app, Hn.
  - apply (Hrest _ ([running_ocr] ++ evs
                    ++ [ Print [PStr (lit "Question text extracted:")];
                         Print [PStr (take 500 text); PStr (lit "...\n")] ])).
    + cbn [logged trace]. rewrite Htr. cbn [logged trace].
      by rewrite <- !app_assoc.
    + intros fn. by rewrite !calls_of_app, Hc.
    + by rewrite !notion_appends_app, Hn.
Qed.

(** X17.  When the image gives text and the Structurer's reply parses to a
    record [build_notion_payload] rejects, the run ends with that
    exception inside the Publisher: the record was printed, and nothing was
    sent to Notion. *)
Theorem malformed_record_stops_run (state : dict) (path : pyval) (w0 w1 : World)
    (text reply : str) (record : pyval) (e : exn) :
  NoDup (List.map fst state) ->
  dict_get (lit "file_path") state = Some path ->
  Ocr.image_to_text path [lit "en"] true (logged [running_ocr] w0) = (inr text, w1) ->
  strip text <> [] ->
  model_invoke (prompt_format (PStr text)) = inr reply ->
  json_loads (strip reply) = inr record ->
  Notion.build_notion_payload record = inl e ->
  let run := invoke graph state w0 in
  fst run = inl e
  /\ notion_appends (events_since w0 (snd run)) = []
  /\ last (events_since w0 (snd run)) = Some (Print [record]).
Proof.
  intros Hnd Hpath Himg Htext Hllm Hjson Hbuild run.
  destruct (get_question_text_text state path w0 w1 text Hpath Himg Htext)
    as (w1' & evs & Hn1 & Htr & Hc & Hn).
  destruct (dict_update_set state (lit "ocr_text") (PStr text) Hnd)
    as (Hs1 & Hnd1 & _).
  set (s1 := dict_update state (dict_set (lit "ocr_text") (PStr text) state)) in *.
  destruct (dict_update_set s1 (lit "question") record Hnd1) as (Hs2 & _ & _).
  set (s2 := dict_update s1 (dict_set (lit "question") record s1)) in *.
  assert (Hrun : run
    = (inl e,
       logged [ Print [PStr (lit "Uploading to Notion...")];
                Called "upload_question" record;
                Print [record] ]
         (logged [Print [PStr (lit "Ollama Generate the question")]]
            (logged [ Print [PStr (lit "Asking local LLM (Ollama) to answer...")];
                      Called "answer_question_with_llm" (PStr text);
                      LlmInvoke (prompt_format (PStr text)) ] w1')))).
  { subst run. rewrite invoke_graph_run. unfold bind. rewrite Hn1.
    fold s1. rewrite (convert_text_to_json_run s1 (PStr text) w1' Hs1).
    cbv zeta. rewrite Hllm, Hjson. fold s2.
    rewrite (upload_to_notion_run s2 record _ Hs2). cbv zeta.
    by rewrite Hbuild. }
  rewrite Hrun. cbn [fst snd]. split; [done|]. run_events Htr. split.
  - by rewrite notion_appends_app, Hn.
  - by rewrite !last_app.
Qed.


End EveryRun.

Lemma run_without_file_path_witness :
  let env := StandIn.collaborators (inr [lit "What is S3?"])
               (inr StandIn.record_text) StandIn.documents (inr PNone) in
  fst (@Agent.invoke (@Agent.graph env) [(lit "image", PStr (lit "images/Prueba.png"))]
         (StandIn.world0 false))
  = inl (KeyError (PStr (lit "file_path"))).
Proof.
  intros env.
  rewrite (@run_without_file_path env [(lit "image", PStr (lit "images/Prueba.png"))]
             (StandIn.world0 false) eq_refl).
  reflexivity.
Defined.

Lemma ocr_failure_stops_run_witness :
  let env := StandIn.collaborators (inr [lit "What is S3?"])
               (inr StandIn.record_text) StandIn.documents (inr PNone) in
  let state := [(lit "file_path", PStr (lit "images/Example.png"))] in
  fst (@Agent.invoke (@Agent.graph env) state (StandIn.world0 false))
  = inl (Spec.ImageNotFound (lit "images/Example.png")).
Proof.
  intros env state.
  destruct (@ocr_failure_stops_run env state (PStr (lit "images/Example.png"))
              (StandIn.world0 false) _ (Spec.ImageNotFound (lit "images/Example.png"))
              eq_refl ltac:(vm_compute; reflexivity)) as [-> _].
  reflexivity.
Defined.

Lemma malformed_record_stops_run_witness :
  let env := StandIn.collaborators (inr [lit "What is S3?"])
               (inr (lit "42")) StandIn.documents (inr PNone) in
  let run := @Agent.invoke (@Agent.graph env) Agent.input_state (StandIn.world0 false) in
  exists e, fst run = inl e
            /\ Obs.notion_appends (Obs.events_since (StandIn.world0 false) (snd run)) = [].
Proof.
  intros env run. eexists.
  destruct (@malformed_record_stops_run env Agent.input_state
              (PStr (lit "images/Prueba.png")) (StandIn.world0 false) _
              (lit "What is S3?") (lit "42") (PInt 42) _
              ltac:(repeat constructor; set_solver)
              eq_refl ltac:(vm_compute; reflexivity) ltac:(vm_compute; discriminate)
              eq_refl ltac:(vm_compute; reflexivity) ltac:(vm_compute; reflexivity))
    as (Hres & Happ & _).
  split; [exact Hres | exact Happ].
Defined.


(** ** main.py *)

Section MainRuns.
Import Main Obs.
Context `{Collaborators}.

Lemma save_markdown_run (content out_dir : str) (h : Host) :
  save_markdown content out_dir h
  = match makedirs_error h out_dir with
    | Some e => (inl e, h)
    | None =>
        let h1 := mk_Host (base h) (text_files h) (made_dirs h ++ [out_dir])
                          (makedirs_error h) (open_error h) (utc_stamp h) in
        match open_error h (answer_path out_dir h) with
        | Some e => (inl e, h1)
        | None =>
            if existsb surrogate content
            then (inl ValueError, set_text (answer_path out_dir h) [] h1)
            else (inr (answer_path out_dir h),
                  set_text (answer_path out_dir h) content h1)
        end
    end.
Proof.
  unfold save_markdown, Main.bind, makedirs, utcnow_strftime, write_text, Main.ret,
    answer_path.
  destruct (makedirs_error h out_dir); [done|]. cbn [open_error utc_stamp].
  destruct (open_error h _); [done|]. by destruct (existsb surrogate content).
Qed.

(** What [save_markdown] leaves of the host: the process of the other
    modules, the clock and what fails are as before; one more directory
    was asked for at most, and every file but the answer's is as before. *)
Lemma save_markdown_host (content out_dir : str) (h : Host) :
  let h' := snd (save_markdown content out_dir h) in
  base h' = base h
  /\ utc_stamp h' = utc_stamp h
  /\ (forall q, q <> answer_path out_dir h -> text_files h' !! q = text_files h !! q).
Proof.
  cbv zeta. rewrite save_markdown_run.
  destruct (makedirs_error h out_dir); [done|]. cbv zeta.
  destruct (open_error h _); [done|].
  destruct (existsb surrogate content); cbn; repeat split; try done;
    intros q Hq; by rewrite lookup_insert_ne.
Qed.

Lemma main_run (image_path : pyval) (lang : str) (use_gpu notion_upload : bool)
    (h : Host) :
  main image_path lang use_gpu notion_upload h
  = match Ocr.image_to_text image_path [lang] use_gpu
            (logged [Print [PStr (lit "Running OCR...")]] (base h)) with
    | (inl e, w1) => (inl e, with_base w1 h)
    | (inr text, w1) =>
        if bool_decide (strip text = []) then
          (inr tt,
           with_base (logged [Print [PStr (lit "No text extracted from image.")]] w1) h)
        else
          let w2 := logged [ Print [PStr (lit "Question text extracted:")];
                             Print [PStr (take 500 text);
                                    PStr (lit "..." ++ Main.newline)];
                             Print [PStr (lit "Asking local LLM (Ollama) to answer...")];
                             Called "answer_question_with_llm" (PStr text);
                             LlmInvoke (prompt_format (PStr text)) ] w1 in
          match model_invoke (prompt_format (PStr text)) with
          | inl e => (inl e, with_base w2 h)
          | inr content =>
              match save_markdown (markdown text (strip content)) (lit "outputs")
                      (with_base w2 h) with
              | (inl e, h3) => (inl e, h3)
              | (inr saved, h3) =>
                  let w4 := logged [Print [PStr (lit "Saved markdown to:"); PStr saved]]
                              (base h3) in
                  if notion_upload then
                    (inl (TypeError
                       "upload_question() got an unexpected keyword argument 'title'"),
                     with_base (logged [Print [PStr (lit "Uploading to Notion...")]] w4)
                               h3)
                  else (inr tt, with_base w4 h3)
              end
          end
    end.
Proof.
  unfold main, Main.bind, Main.print, in_base, Run.print, Main.ret.
  rewrite log_run. cbn [base with_base].
  destruct (Ocr.image_to_text image_path [lang] use_gpu _) as [[e|text] w1]; [done|].
  cbn [base with_base]. case_bool_decide.
  - by rewrite log_run.
  - rewrite !log_run. cbn [base with_base]. rewrite !logged_logged. cbn [app].
    unfold Llm.answer_question_with_llm, Run.bind, lift, Run.ret.
    rewrite !log_run, !logged_logged. cbn [app].
    change (with_base ?w (with_base ?w' ?h')) with (with_base w h').
    destruct (model_invoke (prompt_format (PStr text))) as [e|content]; [done|].
    destruct (save_markdown _ _ _) as [[e|saved] h3]; [done|].
    rewrite log_run. destruct notion_upload; [|done].
    cbn [base with_base]. by rewrite log_run.
Qed.

(** X19.  [main] never reaches Notion: whatever its arguments and whatever the
    collaborators do, no block is sent and [upload_question]'s body does
    not run; the model is asked at most once. *)
Theorem main_never_reaches_notion (image_path : pyval) (lang : str)
    (use_gpu notion_upload : bool) (h : Host) :
  let evs := events_since (base h)
               (base (snd (main image_path lang use_gpu notion_upload h))) in
  notion_appends evs = []
  /\ publisher_calls evs = []
  /\ (length (structurer_calls evs) <= 1)%nat.
Proof.
  cbv zeta. rewrite main_run.
  destruct (image_to_text_events image_path [lang] use_gpu
              (logged [Print [PStr (lit "Running OCR...")]] (base h)))
    as (evs & Htr & Hc & Hn).
  destruct (Ocr.image_to_text image_path [lang] use_gpu _) as [[e|text] w1];
    cbn [snd] in Htr.
  { cbn [snd base with_base]. run_events Htr.
    split; [|split]; count_calls Hc Hn. }
  case_bool_decide.
  { cbn [snd base with_base]. run_events Htr.
    split; [|split]; count_calls Hc Hn. }
  cbv zeta.
  destruct (model_invoke (prompt_format (PStr text))) as [e|content].
  { cbn [snd base with_base]. run_events Htr.
    split; [|split]; count_calls Hc Hn. }
  match goal with |- context [save_markdown ?c ?d ?h0] =>
    destruct (save_markdown_host c d h0) as (Hb & _);
    destruct (save_markdown c d h0) as [[e|saved] h3] end;
    cbn [snd base with_base] in Hb.
  { cbn [snd]. rewrite Hb. run_events Htr. split; [|split]; count_calls Hc Hn. }
  destruct notion_upload; cbn [snd base with_base]; rewrite Hb; run_events Htr;
    (split; [|split]; count_calls Hc Hn).
Qed.


(** X21.  With the upload asked for, [main] returns normally only when the
    image gave blank text: on every other path it ends with an exception. *)
Theorem main_upload_returns_only_blank (image_path : pyval) (lang : str)
    (use_gpu : bool) (h : Host) :
  fst (main image_path lang use_gpu true h) = inr tt ->
  exists text,
    fst (Ocr.image_to_text image_path [lang] use_gpu
           (logged [Print [PStr (lit "Running OCR...")]] (base h))) = inr text
    /\ strip text = [].
Proof.
  rewrite main_run.
  destruct (Ocr.image_to_text image_path [lang] use_gpu _) as [[e|text] w1]; [done|].
  case_bool_decide; [by exists text|]. cbv zeta.
  destruct (model_invoke (prompt_format (PStr text))); [done|].
  by destruct (save_markdown _ _ _) as [[e|saved] h3].
Qed.

Lemma markdown_surrogate (text answer : str) :
  existsb surrogate (markdown text answer)
  = existsb surrogate text || existsb surrogate answer.
Proof.
  unfold markdown. rewrite !existsb_app.
  change (existsb surrogate Main.newline) with false.
  change (existsb surrogate (lit "# Question")) with false.
  change (existsb surrogate (lit "# Answer")) with false.
  cbn [orb]. by rewrite !orb_false_r.
Qed.

(** The directory part of an answer's path depends on [out_dir] alone. *)
Lemma answer_path_prefix (out_dir : str) :
  exists pre, forall h,
    answer_path out_dir h = pre ++ lit "answer_" ++ utc_stamp h ++ lit ".md".
Proof.
  unfold answer_path, path_join.
  destruct (last out_dir) as [z|]; [destruct (z =? slash)%N|].
  - by exists out_dir.
  - exists (out_dir ++ [slash]). intros h. by rewrite <- app_assoc.
  - by exists out_dir.
Qed.

Lemma answer_path_inj (out_dir : str) (h h' : Host) :
  answer_path out_dir h = answer_path out_dir h' <-> utc_stamp h = utc_stamp h'.
Proof.
  destruct (answer_path_prefix out_dir) as [pre Hpre]. rewrite !Hpre. split.
  - intros Heq. apply app_inv_head in Heq. apply app_inv_head in Heq.
    by apply app_inv_tail in Heq.
  - by intros ->.
Qed.

(** X22.  When the image gives text and the model replies, and the output
    directory and file can be made, [main] leaves the question and the
    stripped reply in [outputs/answer_<stamp>.md]; it then returns, or, with
    the upload asked for, ends with the [TypeError] of the call
    [upload_question(md, title=...)]. *)
Theorem main_saves_markdown (image_path : pyval) (lang : str)
    (use_gpu notion_upload : bool) (h : Host) (text content : str) (w1 : World) :
  Ocr.image_to_text image_path [lang] use_gpu
    (logged [Print [PStr (lit "Running OCR...")]] (base h)) = (inr text, w1) ->
  strip text <> [] ->
  model_invoke (prompt_format (PStr text)) = inr content ->
  makedirs_error h (lit "outputs") = None ->
  open_error h (answer_path (lit "outputs") h) = None ->
  existsb surrogate text = false ->
  existsb surrogate content = false ->
  let run := main image_path lang use_gpu notion_upload h in
  let path := lit "outputs/answer_" ++ utc_stamp h ++ lit ".md" in
  text_files (snd run)
  = <[path := lit "# Question" ++ Main.newline ++ Main.newline ++ text
              ++ Main.newline ++ Main.newline ++ lit "# Answer"
              ++ Main.newline ++ Main.newline ++ strip content ++ Main.newline]>
      (text_files h)
  /\ made_dirs (snd run) = made_dirs h ++ [lit "outputs"]
  /\ fst run
     = if notion_upload
       then inl (TypeError
                   "upload_question() got an unexpected keyword argument 'title'")
       else inr tt.
Proof.
  intros Himg Htext Hllm Hdir Hopen Hst Hsc run path. subst run.
  rewrite main_run, Himg, bool_decide_eq_false_2 by done. cbv zeta.
  rewrite Hllm, save_markdown_run.
  cbn [makedirs_error open_error with_base]. rewrite Hdir.
  change (answer_path (lit "outputs") (with_base ?w h))
    with (answer_path (lit "outputs") h).
  rewrite Hopen, markdown_surrogate, Hst.
  assert (Hstrip : existsb surrogate (strip content) = false).
  { apply not_true_iff_false. intros Hex. apply existsb_exists in Hex.
    destruct Hex as (c & Hin & Hc).
    assert (Hsub : forall s, In c (lstrip s) -> In c s).
    { intros s0 Hc0. destruct (lstrip_suffix s0) as [pre Hpre]. rewrite Hpre.
      apply in_or_app. by right. }
    assert (Hin' : In c content).
    { unfold strip, rstrip in Hin. apply Hsub in Hin.
      apply in_rev, Hsub in Hin. by apply in_rev in Hin. }
    assert (Hex : existsb surrogate content = true)
      by (apply existsb_exists; by exists c).
    congruence. }
  rewrite Hstrip. cbn [orb].
  by destruct notion_upload.
Qed.

(** X23.  [main] writes to no file but [outputs/answer_<stamp>.md]. *)
Theorem main_writes_one_file (image_path : pyval) (lang : str)
    (use_gpu notion_upload : bool) (h : Host) (q : str) :
  q <> lit "outputs/answer_" ++ utc_stamp h ++ lit ".md" ->
  text_files (snd (main image_path lang use_gpu notion_upload h)) !! q
  = text_files h !! q.
Proof.
  intros Hq. rewrite main_run.
  destruct (Ocr.image_to_text image_path [lang] use_gpu _) as [[e|text] w1]; [done|].
  case_bool_decide; [done|]. cbv zeta.
  destruct (model_invoke (prompt_format (PStr text))) as [e|content]; [done|].
  match goal with |- context [save_markdown ?c ?d ?h0] =>
    destruct (save_markdown_host c d h0) as (_ & _ & Hfiles);
    destruct (save_markdown c d h0) as [[e|saved] h3] end;
    cbn [snd] in Hfiles; specialize (Hfiles q Hq).
  - done.
  - by destruct notion_upload.
Qed.

(** X24.  Two answers saved one after the other: the second is in its file;
    both went to the same file exactly when the clock showed the same
    second, and otherwise the first is still in its own. *)
Theorem save_markdown_twice (c1 c2 out_dir stamp2 : str) (h : Host) :
  makedirs_error h out_dir = None ->
  (forall p, open_error h p = None) ->
  existsb surrogate c1 = false ->
  existsb surrogate c2 = false ->
  let r1 := save_markdown c1 out_dir h in
  let r2 := save_markdown c2 out_dir (at_stamp stamp2 (snd r1)) in
  exists p1 p2,
    fst r1 = inr p1 /\ fst r2 = inr p2
    /\ text_files (snd r2) !! p2 = Some c2
    /\ (p1 = p2 <-> stamp2 = utc_stamp h)
    /\ (stamp2 <> utc_stamp h -> text_files (snd r2) !! p1 = Some c1).
Proof.
  intros Hdir Hopen H1 H2 r1 r2. subst r1 r2.
  rewrite (save_markdown_run c1), Hdir, Hopen, H1. cbv zeta. cbn [fst snd].
  rewrite save_markdown_run.
  cbn [makedirs_error open_error at_stamp set_text]. rewrite Hdir, Hopen, H2.
  cbn [fst snd text_files set_text].
  eexists. eexists. split; [reflexivity|]. split; [reflexivity|].
  match goal with |- context [<[answer_path out_dir ?h2 := c2]> _] =>
    pose proof (answer_path_inj out_dir h h2) as Hinj end.
  cbn [utc_stamp at_stamp] in Hinj. cbn [text_files at_stamp set_text].
  split; [by rewrite lookup_insert_eq|]. split.
  - rewrite Hinj. split; by intros ->.
  - intros Hne. rewrite lookup_insert_ne.
    + by rewrite lookup_insert_eq.
    + intros Heq. symmetry in Heq. apply Hinj in Heq. by subst.
Qed.

End MainRuns.


Lemma main_upload_returns_only_blank_witness :
  let env := StandIn.collaborators (inr [lit "  "]) (inr (lit "unused")) []
               (inr PNone) in
  let h := Main.host0 (StandIn.world0 false) "20240101_120000" in
  exists text,
    fst (@Ocr.image_to_text env (PStr (lit "images/Prueba.png")) [lit "en"] true
           (Obs.logged [Print [PStr (lit "Running OCR...")]] (Main.base h)))
    = inr text
    /\ strip text = [].
Proof.
  intros env h.
  apply (@main_upload_returns_only_blank env (PStr (lit "images/Prueba.png"))
           (lit "en") true h).
  vm_compute. reflexivity.
Defined.

Lemma main_saves_markdown_witness :
  let env := StandIn.collaborators (inr [lit "What is S3?"])
               (inr (lit "  S3 is storage. ")) [] (inr PNone) in
  let h := Main.host0 (StandIn.world0 false) "20240101_120000" in
  let run := @Main.main env (PStr (lit "images/Prueba.png")) (lit "en") true true h in
  Main.text_files (snd run) !! lit "outputs/answer_20240101_120000.md"
  = Some (lit "# Question" ++ Main.newline ++ Main.newline ++ lit "What is S3?"
          ++ Main.newline ++ Main.newline ++ lit "# Answer"
          ++ Main.newline ++ Main.newline ++ lit "S3 is storage." ++ Main.newline)
  /\ fst run
     = inl (TypeError "upload_question() got an unexpected keyword argument 'title'").
Proof.
  intros env h run.
  destruct (@main_saves_markdown env (PStr (lit "images/Prueba.png")) (lit "en")
              true true h (lit "What is S3?") (lit "  S3 is storage. ") _
              ltac:(vm_compute; reflexivity) ltac:(vm_compute; discriminate)
              eq_refl eq_refl eq_refl eq_refl eq_refl) as (Hfiles & _ & Hres).
  split; [|exact Hres].
  fold run in Hfiles. rewrite Hfiles. apply lookup_insert_eq.
Defined.

Lemma main_writes_one_file_witness :
  let env := StandIn.collaborators (inr [lit "What is S3?"])
               (inr (lit "  S3 is storage. ")) [] (inr PNone) in
  let h := Main.host0 (StandIn.world0 false) "20240101_120000" in
  Main.text_files
    (snd (@Main.main env (PStr (lit "images/Prueba.png")) (lit "en") true false h))
    !! lit "outputs/preprocessed.jpg"
  = None.
Proof.
  intros env h.
  rewrite (@main_writes_one_file env (PStr (lit "images/Prueba.png")) (lit "en")
             true false h (lit "outputs/preprocessed.jpg")).
  - reflexivity.
  - intros Heq. vm_compute in Heq. discriminate.
Defined.

Lemma save_markdown_twice_witness :
  let h := Main.host0 (StandIn.world0 false) "20240101_120000" in
  let r1 := Main.save_markdown (lit "first") (lit "outputs") h in
  let r2 := Main.save_markdown (lit "second") (lit "outputs")
              (Main.at_stamp (lit "20240101_120000") (snd r1)) in
  exists p1 p2,
    fst r1 = inr p1 /\ fst r2 = inr p2
    /\ Main.text_files (snd r2) !! p2 = Some (lit "second")
    /\ (p1 = p2 <-> lit "20240101_120000" = Main.utc_stamp h)
    /\ (lit "20240101_120000" <> Main.utc_stamp h ->
        Main.text_files (snd r2) !! p1 = Some (lit "first")).
Proof.
  intros h.
  exact (save_markdown_twice (lit "first") (lit "second") (lit "outputs")
           (lit "20240101_120000") h eq_refl (fun _ => eq_refl) eq_refl eq_refl).
Defined.
